(** * Session and request-authorization subsystem of the product-search client

    A shallow embedding of the client's credential store (utils/storage.ts),
    its session slice (store/authSlice.ts), its wishlist slice
    (store/wishlistSlice.ts) and its HTTP client with the refresh-on-401
    response interceptor (utils/api.ts), with the properties the
    specification states about them.

    Conventions.
    - [localStorage] is a finite map from strings to strings; [getItem]
      answering [null] is [None].
    - A JavaScript string is a Rocq [string]; text outside ASCII is carried
      as its UTF-8 bytes.
    - [if (x)] on a value of type [string | null] is [truthy]: present and
      not the empty string.
    - The effects of the HTTP client (storage, session store, toasts, the
      wire) are threaded through an explicit [World]. *)

From Stdlib Require Import ZArith Ascii String List Lia.
From stdpp Require Import base option list strings gmap pretty.

Local Open Scope Z_scope.

(** ** The platform's JSON object

    [JSON.stringify] and [JSON.parse] are reached through an interface, so
    that what is proved about the credential store holds for whatever parser
    the platform provides; [Json] below is the instance used for the
    round-trip law. *)

Class JSON (value : Type) := {
  JSON_stringify : value → string;
  JSON_parse : string → option value;
}.

Module Json.

(** A value is represented by its JSON syntax tree.  A number is kept as
    its literal: the double it denotes is not part of this model. *)
#[local] Unset Elimination Schemes.
Inductive json :=
| JNull
| JBool (b : bool)
| JNumber (literal : string)
| JString (s : string)
| JArray (items : list json)
| JObject (members : list (string * json)).
#[local] Set Elimination Schemes.

(** *** Printing, the way [JSON.stringify(v)] does without indentation *)

Definition hex_digit (n : nat) : ascii :=
  match n with
  | 0%nat => "0" | 1%nat => "1" | 2%nat => "2" | 3%nat => "3"
  | 4%nat => "4" | 5%nat => "5" | 6%nat => "6" | 7%nat => "7"
  | 8%nat => "8" | 9%nat => "9" | 10%nat => "a" | 11%nat => "b"
  | 12%nat => "c" | 13%nat => "d" | 14%nat => "e" | _ => "f"
  end%char.

Definition dquote : ascii := ascii_of_nat 34.

Definition escape_char (c : ascii) : string :=
  let n := nat_of_ascii c in
  if (n =? 34)%nat then String "\" (String dquote "")
  else if (n =? 92)%nat then "\\"
  else if (n =? 8)%nat then "\b"
  else if (n =? 12)%nat then "\f"
  else if (n =? 10)%nat then "\n"
  else if (n =? 13)%nat then "\r"
  else if (n =? 9)%nat then "\t"
  else if (n <? 32)%nat then
    "\u00" +:+ String (hex_digit (n / 16)) (String (hex_digit (n mod 16)) "")
  else String c "".

Fixpoint escape (s : string) : string :=
  match s with
  | EmptyString => ""
  | String c s' => escape_char c +:+ escape s'
  end.

Definition quote (s : string) : string :=
  String dquote (escape s +:+ String dquote "").

Fixpoint join_comma (parts : list string) : string :=
  match parts with
  | [] => ""
  | [p] => p
  | p :: rest => p +:+ "," +:+ join_comma rest
  end.

Fixpoint stringify (v : json) : string :=
  match v with
  | JNull => "null"
  | JBool true => "true"
  | JBool false => "false"
  | JNumber literal => literal
  | JString s => quote s
  | JArray items => "[" +:+ join_comma (map stringify items) +:+ "]"
  | JObject members =>
      "{" +:+
      join_comma (map (λ kv, quote kv.1 +:+ ":" +:+ stringify kv.2) members)
      +:+ "}"
  end.

(** *** Parsing, the way [JSON.parse(text)] does; [None] is its SyntaxError *)

Definition is_ws (c : ascii) : bool :=
  let n := nat_of_ascii c in
  (n =? 32)%nat || (n =? 9)%nat || (n =? 10)%nat || (n =? 13)%nat.

Fixpoint skip_ws (s : string) : string :=
  match s with
  | String c rest => if is_ws c then skip_ws rest else s
  | EmptyString => ""
  end.

Definition is_digit (c : ascii) : bool :=
  let n := nat_of_ascii c in (48 <=? n)%nat && (n <=? 57)%nat.

Definition hex_value (c : ascii) : option nat :=
  let n := nat_of_ascii c in
  if (48 <=? n)%nat && (n <=? 57)%nat then Some (n - 48)%nat
  else if (97 <=? n)%nat && (n <=? 102)%nat then Some (n - 87)%nat
  else if (65 <=? n)%nat && (n <=? 70)%nat then Some (n - 55)%nat
  else None.

(** The bytes that carry the code unit a [\uXXXX] escape denotes. *)
Definition utf8 (code : nat) : string :=
  if (code <? 128)%nat then String (ascii_of_nat code) ""
  else if (code <? 2048)%nat then
    String (ascii_of_nat (192 + code / 64))
      (String (ascii_of_nat (128 + code mod 64)) "")
  else
    String (ascii_of_nat (224 + code / 4096))
      (String (ascii_of_nat (128 + (code / 64) mod 64))
         (String (ascii_of_nat (128 + code mod 64)) "")).

Definition unescape (e : ascii) : option ascii :=
  let m := nat_of_ascii e in
  if (m =? 34)%nat || (m =? 92)%nat || (m =? 47)%nat then Some e
  else if (m =? 98)%nat then Some (ascii_of_nat 8)
  else if (m =? 102)%nat then Some (ascii_of_nat 12)
  else if (m =? 110)%nat then Some (ascii_of_nat 10)
  else if (m =? 114)%nat then Some (ascii_of_nat 13)
  else if (m =? 116)%nat then Some (ascii_of_nat 9)
  else None.

Definition prepend (p : string) (r : option (string * string))
  : option (string * string) :=
  match r with
  | Some (t, rest) => Some (p +:+ t, rest)
  | None => None
  end.

(** The characters of a string literal, from just after its opening quote
    up to and including its closing quote. *)
Fixpoint parse_chars (s : string) : option (string * string) :=
  match s with
  | EmptyString => None
  | String c rest =>
      let n := nat_of_ascii c in
      if (n =? 34)%nat then Some ("", rest)
      else if (n =? 92)%nat then
        match rest with
        | EmptyString => None
        | String e rest1 =>
            if (nat_of_ascii e =? 117)%nat then
              match rest1 with
              | String h1 (String h2 (String h3 (String h4 rest2))) =>
                  match hex_value h1, hex_value h2, hex_value h3, hex_value h4 with
                  | Some a, Some b, Some c, Some d =>
                      prepend (utf8 (((a * 16 + b) * 16 + c) * 16 + d))
                              (parse_chars rest2)
                  | _, _, _, _ => None
                  end
              | _ => None
              end
            else
              match unescape e with
              | Some ch => prepend (String ch "") (parse_chars rest1)
              | None => None
              end
        end
      else if (n <? 32)%nat then None
      else prepend (String c "") (parse_chars rest)
  end.

Fixpoint take_digits (s : string) : string * string :=
  match s with
  | String c rest =>
      if is_digit c
      then let '(ds, r) := take_digits rest in (String c ds, r)
      else ("", s)
  | EmptyString => ("", "")
  end.

Definition scan_digits1 (s : string) : option (string * string) :=
  match take_digits s with
  | (EmptyString, _) => None
  | (ds, r) => Some (ds, r)
  end.

Definition scan_sign (s : string) : string * string :=
  match s with
  | String c rest => if (nat_of_ascii c =? 45)%nat then ("-", rest) else ("", s)
  | EmptyString => ("", "")
  end.

Definition scan_int (s : string) : option (string * string) :=
  match s with
  | String c rest =>
      if (nat_of_ascii c =? 48)%nat then Some ("0", rest)
      else if is_digit c
      then let '(ds, r) := take_digits rest in Some (String c ds, r)
      else None
  | EmptyString => None
  end.

Definition scan_frac (s : string) : option (string * string) :=
  match s with
  | String c rest =>
      if (nat_of_ascii c =? 46)%nat
      then '(ds, r) ← scan_digits1 rest; Some (String c ds, r)
      else Some ("", s)
  | EmptyString => Some ("", "")
  end.

Definition scan_exp (s : string) : option (string * string) :=
  match s with
  | String c rest =>
      if (nat_of_ascii c =? 101)%nat || (nat_of_ascii c =? 69)%nat then
        match rest with
        | String sg rest1 =>
            if (nat_of_ascii sg =? 43)%nat || (nat_of_ascii sg =? 45)%nat
            then '(ds, r) ← scan_digits1 rest1; Some (String c (String sg ds), r)
            else '(ds, r) ← scan_digits1 rest; Some (String c ds, r)
        | EmptyString => None
        end
      else Some ("", s)
  | EmptyString => Some ("", "")
  end.

(** A number literal: an optional minus sign, an integer part without
    leading zeros, an optional fraction, an optional exponent. *)
Definition scan_number (s : string) : option (string * string) :=
  let '(sign, s1) := scan_sign s in
  '(i, s2) ← scan_int s1;
  '(f, s3) ← scan_frac s2;
  '(e, s4) ← scan_exp s3;
  Some (sign +:+ i +:+ f +:+ e, s4).

Fixpoint strip_prefix (p s : string) : option string :=
  match p, s with
  | EmptyString, _ => Some s
  | String a p', String b s' =>
      if (nat_of_ascii a =? nat_of_ascii b)%nat then strip_prefix p' s' else None
  | String _ _, EmptyString => None
  end.

(** The elements of a non-empty array, up to and including its [']']. *)
Fixpoint parse_elements (pv : string → option (json * string)) (n : nat)
    (s : string) : option (list json * string) :=
  match n with
  | O => None
  | S n =>
      '(v, s1) ← pv s;
      match skip_ws s1 with
      | String c s2 =>
          if (nat_of_ascii c =? 44)%nat
          then '(vs, s3) ← parse_elements pv n s2; Some (v :: vs, s3)
          else if (nat_of_ascii c =? 93)%nat then Some ([v], s2)
          else None
      | EmptyString => None
      end
  end.

(** The members of a non-empty object, up to and including its ['}']. *)
Fixpoint parse_members (pv : string → option (json * string)) (n : nat)
    (s : string) : option (list (string * json) * string) :=
  match n with
  | O => None
  | S n =>
      match skip_ws s with
      | String q s0 =>
          if (nat_of_ascii q =? 34)%nat then
            '(k, s1) ← parse_chars s0;
            match skip_ws s1 with
            | String c1 s2 =>
                if (nat_of_ascii c1 =? 58)%nat then
                  '(v, s3) ← pv s2;
                  match skip_ws s3 with
                  | String c2 s4 =>
                      if (nat_of_ascii c2 =? 44)%nat
                      then '(kvs, s5) ← parse_members pv n s4;
                           Some ((k, v) :: kvs, s5)
                      else if (nat_of_ascii c2 =? 125)%nat
                      then Some ([(k, v)], s4)
                      else None
                  | EmptyString => None
                  end
                else None
            | EmptyString => None
            end
          else None
      | EmptyString => None
      end
  end.

Fixpoint parse_value (fuel : nat) (s : string) : option (json * string) :=
  match fuel with
  | O => None
  | S fuel =>
      match skip_ws s with
      | EmptyString => None
      | String c rest =>
          let n := nat_of_ascii c in
          if (n =? 123)%nat then
            match skip_ws rest with
            | String c1 r1 =>
                if (nat_of_ascii c1 =? 125)%nat then Some (JObject [], r1)
                else '(kvs, r) ← parse_members (parse_value fuel) fuel rest;
                     Some (JObject kvs, r)
            | EmptyString => None
            end
          else if (n =? 91)%nat then
            match skip_ws rest with
            | String c1 r1 =>
                if (nat_of_ascii c1 =? 93)%nat then Some (JArray [], r1)
                else '(vs, r) ← parse_elements (parse_value fuel) fuel rest;
                     Some (JArray vs, r)
            | EmptyString => None
            end
          else if (n =? 34)%nat then
            '(str, r) ← parse_chars rest; Some (JString str, r)
          else if (n =? 116)%nat then
            r ← strip_prefix "true" (String c rest); Some (JBool true, r)
          else if (n =? 102)%nat then
            r ← strip_prefix "false" (String c rest); Some (JBool false, r)
          else if (n =? 110)%nat then
            r ← strip_prefix "null" (String c rest); Some (JNull, r)
          else
            '(lit, r) ← scan_number (String c rest); Some (JNumber lit, r)
      end
  end.

(** The whole text must be one value, white space around it allowed.  No
    nesting is deeper and no array or object longer than the text has
    characters, so this much fuel never runs out on a valid text. *)
Definition parse (s : string) : option json :=
  '(v, rest) ← parse_value (S (String.length s)) s;
  match skip_ws rest with
  | EmptyString => Some v
  | String _ _ => None
  end.

(** What [stringify] prints faithfully: every number is a JSON number
    literal, that is, scanning it as a number reads all of it. *)
Definition valid_number (literal : string) : bool :=
  match scan_number literal with
  | Some (l, EmptyString) => String.eqb l literal
  | _ => false
  end.

Fixpoint serializable (v : json) : bool :=
  match v with
  | JNull | JBool _ | JString _ => true
  | JNumber literal => valid_number literal
  | JArray items => forallb serializable items
  | JObject members => forallb (λ kv, serializable kv.2) members
  end.

Fixpoint size (v : json) : nat :=
  match v with
  | JNull | JBool _ | JString _ | JNumber _ => 1
  | JArray items => S (list_sum (map size items))
  | JObject members => S (list_sum (map (λ kv, size kv.2) members))
  end.

(** *** What the round trip is stated with *)

(** Induction over a value with the values inside it. *)
Fixpoint json_tree_ind (P : json → Prop)
    (Hnull : P JNull) (Hbool : ∀ b, P (JBool b))
    (Hnumber : ∀ literal, P (JNumber literal))
    (Hstring : ∀ s, P (JString s))
    (Harray : ∀ items, Forall P items → P (JArray items))
    (Hobject : ∀ members, Forall (λ kv, P kv.2) members → P (JObject members))
    (v : json) : P v :=
  let rec := json_tree_ind P Hnull Hbool Hnumber Hstring Harray Hobject in
  match v with
  | JNull => Hnull
  | JBool b => Hbool b
  | JNumber literal => Hnumber literal
  | JString s => Hstring s
  | JArray items =>
      Harray items
        ((fix all (l : list json) : Forall P l :=
            match l with
            | [] => @List.Forall_nil _ P
            | x :: l' => @List.Forall_cons _ P x l' (rec x) (all l')
            end) items)
  | JObject members =>
      Hobject members
        ((fix all (l : list (string * json)) : Forall (λ kv, P kv.2) l :=
            match l with
            | [] => @List.Forall_nil _ (λ kv, P kv.2)
            | kv :: l' =>
                @List.Forall_cons _ (λ kv, P kv.2) kv l' (rec kv.2) (all l')
            end) members)
  end.

(** A character at which the scan of a number stops. *)
Definition number_stop (rest : string) : bool :=
  match rest with
  | EmptyString => true
  | String c _ =>
      negb (is_digit c) && negb (nat_of_ascii c =? 46)%nat
      && negb ((nat_of_ascii c =? 101)%nat || (nat_of_ascii c =? 69)%nat)
  end.

(** What may follow a value inside a text: nothing, [,], []] or [}]. *)
Definition delimited (rest : string) : bool :=
  match rest with
  | EmptyString => true
  | String c _ =>
      (nat_of_ascii c =? 44)%nat || (nat_of_ascii c =? 93)%nat
      || (nat_of_ascii c =? 125)%nat
  end.

(** The first character of a printed value: not white space, and not a
    closing bracket. *)
Definition opens_value (c : ascii) : bool :=
  negb (is_ws c) && negb (nat_of_ascii c =? 93)%nat
  && negb (nat_of_ascii c =? 125)%nat.

Definition starts_number (c : ascii) : bool :=
  is_digit c || (nat_of_ascii c =? 45)%nat.

(** [pv] reads the printed [v] back and stops at what follows it. *)
Definition parses (pv : string → option (json * string)) (v : json) : Prop :=
  ∀ rest, delimited rest = true → pv (stringify v +:+ rest) = Some (v, rest).

(** The text of one member of an object. *)
Definition member_text (kv : string * json) : string :=
  quote kv.1 +:+ ":" +:+ stringify kv.2.

End Json.

#[export] Instance json_JSON : JSON Json.json :=
  {| JSON_stringify := Json.stringify; JSON_parse := Json.parse |}.

(** ** [localStorage] and JavaScript's treatment of strings *)

Abbreviation Storage := (gmap string string).

Definition getItem (key : string) (ls : Storage) : option string := ls !! key.

Definition setItem (key value : string) (ls : Storage) : Storage :=
  <[key := value]> ls.

Definition removeItem (key : string) (ls : Storage) : Storage := delete key ls.

Definition nonempty (s : string) : bool :=
  match s with
  | EmptyString => false
  | String _ _ => true
  end.

(** [if (x)] for [x : string | null | undefined]. *)
Definition truthy (x : option string) : bool :=
  match x with
  | Some s => nonempty s
  | None => false
  end.

(** The string a value of type [string | undefined] is converted to when it
    is stored with [setItem] or spliced into a template literal. *)
Definition ToString (x : option string) : string := default "undefined" x.

(** [a || b] on strings. *)
Definition or_else (a : option string) (b : string) : string :=
  match a with
  | Some s => if nonempty s then s else b
  | None => b
  end.

(** ** utils/storage.ts *)

Module storage.
Section storage.
Context {value : Type} `{!JSON value}.

Definition TOKEN_KEY : string := "token".
Definition USER_KEY : string := "auth_user".

(** The parameter types are erased at run time: either argument can reach
    this function as [undefined] ([None]), and [JSON.stringify(undefined)]
    is [undefined]. *)
Definition saveAuthData (token : option string) (user : option value)
    (ls : Storage) : Storage :=
  let ls := setItem TOKEN_KEY (ToString token) ls in
  setItem USER_KEY (ToString (JSON_stringify <$> user)) ls.

Definition clearAuthData (ls : Storage) : Storage :=
  let ls := removeItem TOKEN_KEY ls in
  removeItem USER_KEY ls.

Record StoredAuth := { stored_token : string; stored_user : value }.

(** Returns what [getStoredAuth()] returns ([None] for [null]) and the
    storage it leaves behind. *)
Definition getStoredAuth (ls : Storage) : option StoredAuth * Storage :=
  let token := getItem TOKEN_KEY ls in
  let userStr := getItem USER_KEY ls in
  if negb (truthy token) || negb (truthy userStr) then (None, ls)
  else
    match JSON_parse (default "" userStr) with
    | Some user =>
        (Some {| stored_token := default "" token; stored_user := user |}, ls)
    | None => (None, clearAuthData ls)
    end.

End storage.
End storage.

(** ** store/authSlice.ts *)

Module authSlice.
Section authSlice.
Context {value : Type}.

(** [user] and [token] are [None] when they are [null] (or [undefined]). *)
Record AuthState := {
  user : option value;
  token : option string;
  isAuthenticated : bool;
}.

Definition initialState : AuthState :=
  {| user := None; token := None; isAuthenticated := false |}.

(** The payload of [setCredentials].  Its [token] is declared a string, and
    reaches the reducer as [undefined] ([None]) when the caller read it from
    a response body that has no such field. *)
Record Credentials := {
  payload_user : option value;
  payload_token : option string;
}.

Definition setCredentials (payload : Credentials) (state : AuthState)
  : AuthState :=
  {| user := payload_user payload;
     token := payload_token payload;
     isAuthenticated := truthy (payload_token payload) |}.

(** The reducer calls [clearAuthData()] itself, so it acts on the storage
    as well as on the slice. *)
Definition logout (state : AuthState) (ls : Storage) : AuthState * Storage :=
  let ls := storage.clearAuthData ls in
  ({| user := None; token := None; isAuthenticated := false |}, ls).

(** The slice holds a token that is not the empty string. *)
Definition token_nonempty (state : AuthState) : Prop :=
  ∃ t, token state = Some t ∧ t ≠ "".

End authSlice.
Arguments AuthState : clear implicits.
Arguments Credentials : clear implicits.
End authSlice.

(** ** store/wishlistSlice.ts *)

Module wishlistSlice.
Section wishlistSlice.
(** [price] is a JavaScript number, kept as its literal. *)
Record Product := {
  id : string;
  title : string;
  price : string;
  currency : string;
  platform : string;
  imageUrl : string;
  sourceLink : string;
}.

Record WishlistState := { items : list Product }.

Definition initialState : WishlistState := {| items := [] |}.

Definition setWishlist (payload : list Product) (state : WishlistState)
  : WishlistState :=
  {| items := payload |}.

Definition addToWishlist (payload : Product) (state : WishlistState)
  : WishlistState :=
  let exists_ :=
    List.find (λ item, String.eqb (id item) (id payload)) (items state) in
  match exists_ with
  | None => {| items := items state ++ [payload] |}
  | Some _ => state
  end.

Definition removeFromWishlist (payload : string) (state : WishlistState)
  : WishlistState :=
  {| items :=
       List.filter (λ item, negb (String.eqb (id item) payload)) (items state) |}.

Definition clearWishlist (state : WishlistState) : WishlistState :=
  {| items := [] |}.

(** The ids of the mirror, in order. *)
Definition ids (state : WishlistState) : list string := id <$> items state.

(** At most one entry per product id. *)
Definition unique_ids (state : WishlistState) : Prop := NoDup (ids state).

End wishlistSlice.
End wishlistSlice.

(** ** utils/api.ts: the axios instance and its interceptors *)

Module api.

Abbreviation Headers := (gmap string string).

(** What is passed as [data] to [api.post]: [{}] is [Fields []]. *)
Inductive RequestBody :=
| NoBody
| Fields (fields : list (string * string))
| FormData (image : string).

(** A request configuration: the fields the client sets or reads.  [_retry]
    is the marker the response interceptor adds; a configuration a caller
    builds does not have it ([false]). *)
Record AxiosRequestConfig := {
  url : string;
  method : string;
  body : RequestBody;
  params : list (string * string);
  headers : Headers;
  _retry : bool;
}.

Definition set_header (name v : string) (config : AxiosRequestConfig)
  : AxiosRequestConfig :=
  {| url := url config; method := method config; body := body config;
     params := params config; headers := <[name := v]> (headers config);
     _retry := _retry config |}.

Definition set_retry (b : bool) (config : AxiosRequestConfig)
  : AxiosRequestConfig :=
  {| url := url config; method := method config; body := body config;
     params := params config; headers := headers config; _retry := b |}.

(** axios lays the instance defaults under the headers of the request. *)
Definition merge_defaults (defaults : Headers) (config : AxiosRequestConfig)
  : AxiosRequestConfig :=
  {| url := url config; method := method config; body := body config;
     params := params config; headers := headers config ∪ defaults;
     _retry := _retry config |}.

(** The two clients of the module: the instance [api], whose requests pass
    through the interceptors, and the bare [axios], whose requests do not. *)
Inductive Client := Api | Axios.

Record Sent := { client : Client; request : AxiosRequestConfig }.

Section api.
Context {value : Type}.

(** A response body: the fields the client reads; a field the body does not
    have is [None] ([undefined]). *)
Record ResponseData := {
  access_token : option string;
  refresh_token : option string;
  user : option value;
  error : option string;
}.

(** [response.data] is [None] for the body [null], of which no field can be
    read: [null.error] raises a [TypeError].  Of any other body the fields
    are read, those it does not have as [undefined]. *)
Record AxiosResponse := { status : Z; data : option ResponseData }.

(** The messages of the [TypeError]s raised by [null.property] and by
    [const { property } = name] for a [name] that is [null]; the wording is
    the JavaScript engine's, here V8's. *)
Definition null_read (property : string) : string :=
  "Cannot read properties of null (reading '" +:+ property +:+ "')".

Definition null_destructure (property name : string) : string :=
  "Cannot destructure property '" +:+ property +:+ "' of '" +:+ name
  +:+ "' as it is null.".

Inductive Reply :=
| Responded (response : AxiosResponse)
| NoResponse (message : string).

Record AxiosError := {
  config : AxiosRequestConfig;
  response : option AxiosResponse;
  message : string;
}.

(** How the promise of a request settles: with a response, with an
    [AxiosError], or with another [Error], of which the message is kept. *)
Inductive Settled :=
| Resolved (response : AxiosResponse)
| Rejected (reason : AxiosError)
| Raised (message : string).

(** The configured base URL and the backend: its reply to a request may
    depend on every request sent before it. *)
Class Network := {
  API_URL : string;
  backend : list Sent → Sent → Reply;
}.

(** Everything the client reads or writes besides its arguments. *)
Record World := {
  localStorage : Storage;
  auth : authSlice.AuthState value;
  api_defaults : Headers;
  toasts : list string;
  wire : list Sent;
}.

Definition set_localStorage (f : Storage → Storage) (w : World) : World :=
  {| localStorage := f (localStorage w); auth := auth w;
     api_defaults := api_defaults w; toasts := toasts w; wire := wire w |}.

Definition set_auth (f : authSlice.AuthState value → authSlice.AuthState value)
    (w : World) : World :=
  {| localStorage := localStorage w; auth := f (auth w);
     api_defaults := api_defaults w; toasts := toasts w; wire := wire w |}.

Definition set_api_defaults (f : Headers → Headers) (w : World) : World :=
  {| localStorage := localStorage w; auth := auth w;
     api_defaults := f (api_defaults w); toasts := toasts w; wire := wire w |}.

Definition toast_error (msg : string) (w : World) : World :=
  {| localStorage := localStorage w; auth := auth w;
     api_defaults := api_defaults w; toasts := toasts w ++ [msg];
     wire := wire w |}.

(** [store.dispatch(logout())] *)
Definition dispatch_logout (w : World) : World :=
  let '(state, ls) := authSlice.logout (auth w) (localStorage w) in
  {| localStorage := ls; auth := state;
     api_defaults := api_defaults w; toasts := toasts w; wire := wire w |}.

(** [store.dispatch(setCredentials(payload))] *)
Definition dispatch_setCredentials (payload : authSlice.Credentials value)
    (w : World) : World :=
  set_auth (authSlice.setCredentials payload) w.

Context `{!Network}.

(** Puts a request on the wire and takes the backend's reply. *)
Definition send (c : Client) (config : AxiosRequestConfig) (w : World)
  : Reply * World :=
  let e := {| client := c; request := config |} in
  (backend (wire w) e,
   {| localStorage := localStorage w; auth := auth w;
      api_defaults := api_defaults w; toasts := toasts w;
      wire := wire w ++ [e] |}).

(** axios resolves a reply whose status is 2xx and rejects every other. *)
Definition settle (config : AxiosRequestConfig) (reply : Reply) : Settled :=
  match reply with
  | Responded r =>
      if (200 <=? status r) && (status r <? 300) then Resolved r
      else Rejected {| config := config; response := Some r;
                       message := "Request failed with status code "
                                  +:+ pretty (status r) |}
  | NoResponse msg =>
      Rejected {| config := config; response := None; message := msg |}
  end.

(** [api.interceptors.request.use] *)
Definition request_interceptor (ls : Storage) (config : AxiosRequestConfig)
  : AxiosRequestConfig :=
  let token := getItem "token" ls in
  if truthy token
  then set_header "Authorization" ("Bearer " +:+ ToString token) config
  else config.

Definition session_expired : string := "Session expired. Please log in again.".

(** The request of the refresh exchange, sent with the bare [axios]. *)
Definition refresh_request (refreshToken : string) : AxiosRequestConfig :=
  {| url := API_URL +:+ "/refresh"; method := "post"; body := Fields [];
     params := [];
     headers := {[ "Authorization" := "Bearer " +:+ refreshToken ]};
     _retry := false |}.

(** [error.response?.status === 401] *)
Definition status_is_401 (error : AxiosError) : bool :=
  match response error with
  | Some r => status r =? 401
  | None => false
  end.

(** What the [catch] of the refresh exchange shows for an [AxiosError]:
    [refreshError.response.data.error || 'Token refresh failed.'] when the
    error has a response, its message when it has none.  [None]: the
    response has the body [null], and reading its [error] raises. *)
Definition refresh_failure_toast (refreshError : AxiosError) : option string :=
  match response refreshError with
  | Some r =>
      (λ body, or_else (error body) "Token refresh failed.") <$> data r
  | None => Some (message refreshError)
  end.

(** The error handler of [api.interceptors.response.use]; [retry] is
    [api(originalRequest)].  [originalRequest] is [error.config] itself, so
    the marker set on it shows in the error that is rejected.

    The [try] of the refresh exchange throws the [AxiosError] of the
    exchange, or the [TypeError] of [response.data.access_token] when the
    exchange is answered 2xx with the body [null]; the promise of the retry
    is returned without being awaited, so its rejection is not caught.  The
    [catch] shows what it caught, logs out and rejects with it; when it
    caught an [AxiosError] whose response has the body [null], reading
    [refreshError.response.data.error] raises inside the [catch], before the
    notice and the logout.  The bare [axios] rejects with [AxiosError]s
    only, so the last branch, the one of any other [Error], is not taken by
    what [settle] gives. *)
Definition on_rejected
    (retry : AxiosRequestConfig → World → option (Settled * World))
    (error : AxiosError) (w : World) : option (Settled * World) :=
  let originalRequest := config error in
  if status_is_401 error && negb (_retry originalRequest) then
    let originalRequest := set_retry true originalRequest in
    let error := {| config := originalRequest; response := response error;
                    message := message error |} in
    let refreshToken := getItem "refresh_token" (localStorage w) in
    if truthy refreshToken then
      let request := refresh_request (ToString refreshToken) in
      let '(reply, w) := send Axios request w in
      match settle request reply with
      | Resolved response =>
          match data response with
          | Some body =>
              let newAccessToken := ToString (access_token body) in
              let w := set_localStorage (setItem "token" newAccessToken) w in
              let w :=
                set_api_defaults
                  (insert "Authorization" ("Bearer " +:+ newAccessToken)) w in
              let originalRequest :=
                set_header "Authorization" ("Bearer " +:+ newAccessToken)
                           originalRequest in
              retry originalRequest w
          | None =>
              let refreshError := null_read "access_token" in
              let w := toast_error refreshError w in
              let w := dispatch_logout w in
              let w := set_localStorage storage.clearAuthData w in
              Some (Raised refreshError, w)
          end
      | Rejected refreshError =>
          match refresh_failure_toast refreshError with
          | Some shown =>
              let w := toast_error shown w in
              let w := dispatch_logout w in
              let w := set_localStorage storage.clearAuthData w in
              Some (Rejected refreshError, w)
          | None => Some (Raised (null_read "error"), w)
          end
      | Raised refreshError =>
          let w := toast_error refreshError w in
          let w := dispatch_logout w in
          let w := set_localStorage storage.clearAuthData w in
          Some (Raised refreshError, w)
      end
    else
      let w := toast_error session_expired w in
      let w := dispatch_logout w in
      let w := set_localStorage storage.clearAuthData w in
      Some (Rejected error, w)
  else Some (Rejected error, w).

(** [api(config)]: defaults, request interceptor, the wire, response
    interceptor.  The error handler can call [api] again; [fuel] bounds the
    depth of that recursion and [None] means it ran out. *)
Fixpoint api (fuel : nat) (config : AxiosRequestConfig) (w : World)
  : option (Settled * World) :=
  match fuel with
  | O => None
  | S fuel =>
      let config := merge_defaults (api_defaults w) config in
      let config := request_interceptor (localStorage w) config in
      let '(reply, w) := send Api config w in
      match settle config reply with
      | Resolved response => Some (Resolved response, w)
      | Rejected error => on_rejected (api fuel) error w
      | Raised msg => Some (Raised msg, w)
      end
  end.

(** The configuration [api] puts on the wire for [config]: the instance
    defaults laid under it, then the request interceptor. *)
Definition prepare (w : World) (config : AxiosRequestConfig)
  : AxiosRequestConfig :=
  request_interceptor (localStorage w) (merge_defaults (api_defaults w) config).

(** A request as the wire records it, with the client that sent it. *)
Definition via (c : Client) (config : AxiosRequestConfig) : Sent :=
  {| client := c; request := config |}.

(** The backend's reply to the request and, after it, to the refresh
    exchange made with the refresh token [rt]. *)
Definition first_reply (w : World) (config : AxiosRequestConfig) : Reply :=
  backend (wire w) (via Api (prepare w config)).

Definition refresh_reply (w : World) (config : AxiosRequestConfig)
    (rt : string) : Reply :=
  backend (wire w ++ [via Api (prepare w config)])
          (via Axios (refresh_request rt)).

(** *** The operations exported by utils/api.ts *)

Inductive Result (A : Type) :=
| Returned (a : A)
| Thrown (message : string).
Arguments Returned {A} a.
Arguments Thrown {A} message.

Definition new_request (method url : string) (body : RequestBody)
    (params : list (string * string)) (headers : Headers)
  : AxiosRequestConfig :=
  {| url := url; method := method; body := body; params := params;
     headers := headers; _retry := false |}.

(** [error.response?.data?.error || error.message || fallback] *)
Definition failure_message (error : AxiosError) (fallback : string) : string :=
  let from_body := (response error ≫= data) ≫= api.error in
  or_else (Some (or_else from_body (message error))) fallback.

(** The [try]/[catch] every operation wraps its request in: the data of the
    response is returned, [null] included; an [AxiosError] is thrown again
    as an [Error] that carries a message, any other [Error] as it is. *)
Definition call (fuel : nat) (config : AxiosRequestConfig) (fallback : string)
    (w : World) : option (Result (option ResponseData) * World) :=
  '(settled, w) ← api fuel config w;
  match settled with
  | Resolved response => Some (Returned (data response), w)
  | Rejected error => Some (Thrown (failure_message error fallback), w)
  | Raised msg => Some (Thrown msg, w)
  end.

Definition analyzeImage (fuel : nat) (file : string) :=
  call fuel
    (new_request "post" "/analyze-image" (FormData file) []
       {[ "Content-Type" := "multipart/form-data" ]})
    "Image analysis failed.".

Definition searchProducts (fuel : nat) (query countryCode currency : string) :=
  call fuel
    (new_request "post" "/search" (Fields [("query", query)])
       [("countryCode", countryCode); ("currency", currency)] ∅)
    "Product search failed.".

Definition login (fuel : nat) (email password : string) :=
  call fuel
    (new_request "post" "/login"
       (Fields [("email", email); ("password", password)]) [] ∅)
    "Login failed.".

Definition signup (fuel : nat) (username email password : string) :=
  call fuel
    (new_request "post" "/register"
       (Fields [("username", username); ("email", email);
                ("password", password)]) [] ∅)
    "Signup failed.".

Definition refreshAccessToken (fuel : nat) (w : World)
  : option (Result (option ResponseData) * World) :=
  let refreshToken := getItem "refresh_token" (localStorage w) in
  if negb (truthy refreshToken)
  then Some (Thrown "No refresh token available.", w)
  else
    call fuel
      (new_request "post" "/refresh" (Fields []) []
         {[ "Authorization" := "Bearer " +:+ ToString refreshToken ]})
      "Token refresh failed." w.

Definition getWishlist (fuel : nat) :=
  call fuel (new_request "get" "/wishlist-protected" NoBody [] ∅)
    "Failed to fetch wishlist.".

Definition addToWishlist (fuel : nat) (product : wishlistSlice.Product) :=
  call fuel
    (new_request "post" "/wishlist-protected"
       (Fields [("itemId", wishlistSlice.id product);
                ("title", wishlistSlice.title product);
                ("price", wishlistSlice.price product);
                ("currency", wishlistSlice.currency product);
                ("platform", wishlistSlice.platform product);
                ("imageUrl", wishlistSlice.imageUrl product);
                ("sourceLink", wishlistSlice.sourceLink product)]) [] ∅)
    "Failed to add to wishlist.".

Definition removeFromWishlist (fuel : nat) (productId : string) (w : World)
  : option (Result (option ResponseData) * World) :=
  if negb (nonempty productId) then Some (Thrown "Invalid productId.", w)
  else
    call fuel
      (new_request "delete" "/wishlist-protected" NoBody
         [("itemId", productId)] ∅)
      "Failed to remove from wishlist." w.

(** *** components/AuthForm.tsx and hooks/useAuth.ts, the callers that persist *)

Inductive FormType := login_form | signup_form.

Record Form := { username : string; email : string; password : string }.

(** [handleSubmit]: returns the message given to [setError], if any.
    Destructuring the data [null] raises a [TypeError], which the [catch]
    of the handler shows like any other error. *)
Definition handleSubmit `{!JSON value} (fuel : nat) (type : FormType)
    (formData : Form) (w : World) : option (option string * World) :=
  '(result, w) ←
    match type with
    | login_form => login fuel (email formData) (password formData) w
    | signup_form =>
        signup fuel (username formData) (email formData) (password formData) w
    end;
  match result with
  | Returned (Some data) =>
      let access_token := access_token data in
      let user := user data in
      let w := set_localStorage (storage.saveAuthData access_token user) w in
      let w :=
        dispatch_setCredentials
          {| authSlice.payload_user := user;
             authSlice.payload_token := access_token |} w in
      Some (None, w)
  | Returned None => Some (Some (null_destructure "access_token" "data"), w)
  | Thrown msg => Some (Some msg, w)
  end.

(** One firing of the interval that [useAuth] installs.  Reading
    [data.access_token] of the data [null] raises inside the [try], so it
    ends in the [catch] like a refresh that threw. *)
Definition useAuth_tick (fuel : nat) (w : World) : option World :=
  let state := auth w in
  if authSlice.isAuthenticated state && truthy (authSlice.token state) then
    '(result, w) ← refreshAccessToken fuel w;
    match result with
    | Returned (Some data) =>
        let w :=
          set_localStorage (setItem "token" (ToString (access_token data))) w in
        Some (dispatch_setCredentials
                {| authSlice.payload_user := authSlice.user state;
                   authSlice.payload_token := access_token data |} w)
    | Returned None | Thrown _ =>
        let w := dispatch_logout w in
        let w := set_localStorage storage.clearAuthData w in
        Some (toast_error session_expired w)
    end
  else Some w.

End api.
Arguments ResponseData : clear implicits.
Arguments AxiosResponse : clear implicits.
Arguments Reply : clear implicits.
Arguments AxiosError : clear implicits.
Arguments Settled : clear implicits.
Arguments Network : clear implicits.
Arguments World : clear implicits.
End api.

(** ** Executions of the client

    The operations through which the client touches [localStorage]: the
    functions of utils/storage.ts and utils/api.ts, the submit handler of the
    login and signup forms, the logout button, the refresh interval of
    [useAuth], and the writes of redux-persist, which keeps the two slices
    under its own keys. *)

Module client.
Section client.
Context {value : Type} `{!JSON value} `{!api.Network value}.

Inductive PersistedSlice := persist_auth | persist_wishlist.

Definition persist_key (slice : PersistedSlice) : string :=
  match slice with
  | persist_auth => "persist:auth"
  | persist_wishlist => "persist:wishlist"
  end.

Inductive ClientOp :=
| SaveAuthData (token : option string) (user : option value)
| ClearAuthData
| GetStoredAuth
| AnalyzeImage (file : string)
| SearchProducts (query countryCode currency : string)
| Login (email password : string)
| Signup (username email password : string)
| RefreshAccessToken
| GetWishlist
| AddToWishlist (product : wishlistSlice.Product)
| RemoveFromWishlist (productId : string)
| HandleSubmit (type : api.FormType) (formData : api.Form)
| HandleLogout
| UseAuthTick
| Persist (slice : PersistedSlice) (serialized : string).

(** Two units of fuel: a request and its one retry. *)
Definition fuel : nat := 2.

Definition run_op (op : ClientOp) (w : api.World value)
  : option (api.World value) :=
  match op with
  | SaveAuthData token user =>
      Some (api.set_localStorage (storage.saveAuthData token user) w)
  | ClearAuthData => Some (api.set_localStorage storage.clearAuthData w)
  | GetStoredAuth =>
      Some (api.set_localStorage (λ ls, (storage.getStoredAuth ls).2) w)
  | AnalyzeImage file => snd <$> api.analyzeImage fuel file w
  | SearchProducts query countryCode currency =>
      snd <$> api.searchProducts fuel query countryCode currency w
  | Login email password => snd <$> api.login fuel email password w
  | Signup username email password =>
      snd <$> api.signup fuel username email password w
  | RefreshAccessToken => snd <$> api.refreshAccessToken fuel w
  | GetWishlist => snd <$> api.getWishlist fuel w
  | AddToWishlist product => snd <$> api.addToWishlist fuel product w
  | RemoveFromWishlist productId =>
      snd <$> api.removeFromWishlist fuel productId w
  | HandleSubmit type formData =>
      snd <$> api.handleSubmit fuel type formData w
  | HandleLogout => Some (api.dispatch_logout w)
  | UseAuthTick => api.useAuth_tick fuel w
  | Persist slice serialized =>
      Some (api.set_localStorage (setItem (persist_key slice) serialized) w)
  end.

Fixpoint run (ops : list ClientOp) (w : api.World value)
  : option (api.World value) :=
  match ops with
  | [] => Some w
  | op :: ops => w ← run_op op w; run ops w
  end.

(** What is stored under the key of the refresh token. *)
Definition refresh_token_of (w : api.World value) : option string :=
  getItem "refresh_token" (api.localStorage w).

(** A request of the instance [api] to a route other than the refresh
    route. *)
Definition ordinary (e : api.Sent) : Prop :=
  api.client e = api.Api ∧ api.url (api.request e) ≠ "/refresh".

End client.
Arguments ClientOp : clear implicits.
End client.

(** ** The components that call the store and the API

    What a component shows is not modelled; its event handlers are, as
    functions on the state they read and write.  A handler reads the store
    when it runs, where the component reads it when it renders: the two agree
    because a change of the store renders the component again. *)

Arguments api.Returned {A} a.
Arguments api.Thrown {A} message.

Module app.

(** [navigate(to, { state: { from } })] *)
Inductive Navigation := Navigate (to : string) (from : option string).

Section app.
Context {value : Type}.

(** The world of the HTTP client, the wishlist slice of the store, the
    success toasts and the navigations made. *)
Record App := {
  world : api.World value;
  wishlist : wishlistSlice.WishlistState;
  successes : list string;
  navigations : list Navigation;
}.

Definition with_world (w : api.World value) (a : App) : App :=
  {| world := w; wishlist := wishlist a; successes := successes a;
     navigations := navigations a |}.

(** [dispatch] of an action of the wishlist slice. *)
Definition dispatch_wishlist
    (reducer : wishlistSlice.WishlistState → wishlistSlice.WishlistState)
    (a : App) : App :=
  {| world := world a; wishlist := reducer (wishlist a);
     successes := successes a; navigations := navigations a |}.

Definition toast_success (msg : string) (a : App) : App :=
  {| world := world a; wishlist := wishlist a;
     successes := successes a ++ [msg]; navigations := navigations a |}.

Definition toast_error (msg : string) (a : App) : App :=
  with_world (api.toast_error msg (world a)) a.

Definition navigate (to : string) (from : option string) (a : App) : App :=
  {| world := world a; wishlist := wishlist a; successes := successes a;
     navigations := navigations a ++ [Navigate to from] |}.

Definition isAuthenticated (a : App) : bool :=
  authSlice.isAuthenticated (api.auth (world a)).

(** [requireAuth] of hooks/useAuth.ts; [local] is the state of the component
    that calls it and [pathname] is [location.pathname]. *)
Definition requireAuth {local : Type} (pathname : string)
    (callback : local * App → option (local * App)) (s : local * App)
  : option (local * App) :=
  if negb (isAuthenticated s.2)
  then Some (s.1, navigate "/login" (Some pathname) s.2)
  else callback s.

(** components/ProtectedRoute.tsx: the redirect it renders, [None] when it
    renders its children. *)
Definition ProtectedRoute (pathname : string) (a : App) : option Navigation :=
  if negb (isAuthenticated a)
  then Some (Navigate "/login" (Some pathname))
  else None.

End app.
Arguments App : clear implicits.
End app.

(** *** components/AuthForm.tsx *)

Module AuthForm.

(** The request [handleSubmit] makes through [login] or [signup], and the
    fallback message of the one it calls. *)
Definition submit_request (type : api.FormType) (formData : api.Form)
  : api.AxiosRequestConfig :=
  match type with
  | api.login_form =>
      api.new_request "post" "/login"
        (api.Fields [("email", api.email formData);
                     ("password", api.password formData)]) [] ∅
  | api.signup_form =>
      api.new_request "post" "/register"
        (api.Fields [("username", api.username formData);
                     ("email", api.email formData);
                     ("password", api.password formData)]) [] ∅
  end.

Definition submit_fallback (type : api.FormType) : string :=
  match type with
  | api.login_form => "Login failed."
  | api.signup_form => "Signup failed."
  end.

End AuthForm.

(** *** components/Header.tsx *)

Module Header.
Section Header.
Context {value : Type}.

Definition handleLogout (a : app.App value) : app.App value :=
  let a := app.with_world (api.dispatch_logout (app.world a)) a in
  let a := app.dispatch_wishlist wishlistSlice.clearWishlist a in
  app.navigate "/" None a.

End Header.
End Header.

(** *** pages/Landing.tsx *)

Module Landing.
Section Landing.
Context {value : Type}.

Definition handleStartSearching (a : app.App value) : app.App value :=
  if app.isAuthenticated a then app.navigate "/upload" None a
  else app.navigate "/login" (Some "/upload") a.

End Landing.
End Landing.

(** *** pages/Wishlist.tsx *)

Module WishlistPage.
Section WishlistPage.
Context {value : Type} `{!api.Network value}.

(** [handleRemoveItem]: it catches whatever the removal throws, so it always
    returns. *)
Definition handleRemoveItem (fuel : nat) (productId : string)
    (a : app.App value) : option (api.Result unit * app.App value) :=
  '(result, w) ← api.removeFromWishlist fuel productId (app.world a);
  let a := app.with_world w a in
  match result with
  | api.Returned _ =>
      let a :=
        app.dispatch_wishlist (wishlistSlice.removeFromWishlist productId) a in
      Some (api.Returned (), app.toast_success "Item removed from wishlist" a)
  | api.Thrown _ =>
      Some (api.Returned (),
            app.toast_error "Failed to remove item from wishlist" a)
  end.

(** The [wishlist] field of a response body, which [api.ResponseData] does
    not carry: [None] when the body has no such field. *)
Context (wishlist_of : api.ResponseData value → option (list wishlistSlice.Product)).

(** The effect that loads the wishlist when the page is shown.
    [response.wishlist || []]: an array, empty or not, is kept; of the
    response [null] it raises, which the [catch] reports like a failed
    request. *)
Definition fetchWishlist (fuel : nat) (a : app.App value)
  : option (app.App value) :=
  if app.isAuthenticated a then
    '(result, w) ← api.getWishlist fuel (app.world a);
    let a := app.with_world w a in
    match result with
    | api.Returned (Some response) =>
        Some (app.dispatch_wishlist
                (wishlistSlice.setWishlist (default [] (wishlist_of response)))
                a)
    | api.Returned None | api.Thrown _ =>
        Some (app.toast_error "Failed to load wishlist" a)
    end
  else Some (app.dispatch_wishlist (wishlistSlice.setWishlist []) a).

End WishlistPage.
End WishlistPage.

(** *** components/ProductCard.tsx *)

Module ProductCard.

(** [s.startsWith(searchString)] *)
Fixpoint startsWith (s searchString : string) : bool :=
  match searchString, s with
  | EmptyString, _ => true
  | String a p, String b s' => Ascii.eqb a b && startsWith s' p
  | String _ _, EmptyString => false
  end.

Definition getSourceLink (product : wishlistSlice.Product) : string :=
  let sourceLink := wishlistSlice.sourceLink product in
  if startsWith sourceLink "http://" || startsWith sourceLink "https://"
  then sourceLink
  else "https://" +:+ sourceLink.

(** The state of one card. *)
Record CardState := { isLoading : bool; error : string }.

Section ProductCard.
Context {value : Type} `{!api.Network value}.

(** [wishlistItems.some((item) => item.id === product.id)] *)
Definition isInWishlist (product : wishlistSlice.Product) (a : app.App value)
  : bool :=
  existsb (λ item, String.eqb (wishlistSlice.id item) (wishlistSlice.id product))
          (wishlistSlice.items (app.wishlist a)).

(** [handleWishlistAction]; [isWishlist] and [onRemove] are the properties
    the card was given, [onRemove] being [None] when it was given none. *)
Definition handleWishlistAction (fuel : nat) (pathname : string)
    (product : wishlistSlice.Product) (isWishlist : bool)
    (onRemove :
       option (string → app.App value → option (api.Result unit * app.App value)))
  : CardState * app.App value → option (CardState * app.App value) :=
  app.requireAuth pathname (λ '(card, a),
    let done msg := {| isLoading := false; error := msg |} in
    match isWishlist, onRemove with
    | true, Some onRemove =>
        '(result, a) ← onRemove (wishlistSlice.id product) a;
        match result with
        | api.Returned _ => Some (done "", a)
        | api.Thrown _ =>
            Some (done "",
                  app.toast_error "Failed to remove item from wishlist" a)
        end
    | _, _ =>
        if isInWishlist product a then
          '(result, w) ←
            api.removeFromWishlist fuel (wishlistSlice.id product)
              (app.world a);
          let a := app.with_world w a in
          match result with
          | api.Returned _ =>
              let a :=
                app.dispatch_wishlist
                  (wishlistSlice.removeFromWishlist (wishlistSlice.id product))
                  a in
              Some (done "", app.toast_success "Item removed from wishlist" a)
          | api.Thrown msg => Some (done msg, app.toast_error msg a)
          end
        else
          '(result, w) ← api.addToWishlist fuel product (app.world a);
          let a := app.with_world w a in
          match result with
          | api.Returned _ =>
              let a :=
                app.dispatch_wishlist (wishlistSlice.addToWishlist product) a in
              Some (done "", app.toast_success "Item added to wishlist" a)
          | api.Thrown msg => Some (done msg, app.toast_error msg a)
          end
    end).

End ProductCard.
End ProductCard.

(** *** pages/Upload.tsx *)

Module Upload.
Section Upload.
Context {value : Type} `{!api.Network value}.

(** The search context and the state of the page. *)
Record UploadState := {
  searchResults : list wishlistSlice.Product;
  searchImage : option string;
  isAnalyzing : bool;
  error : option string;
}.

(** [URL.createObjectURL], and the [products] field of a response body:
    [None] when the body has no such field. *)
Context (createObjectURL : string → string).
Context (products_of : api.ResponseData value → option (list wishlistSlice.Product)).

Definition handleImageUpload (fuel : nat) (file : string)
    (s : UploadState * api.World value)
  : option (UploadState * api.World value) :=
  let imageUrl := createObjectURL file in
  '(result, w) ← api.analyzeImage fuel file s.2;
  let failed msg :=
    {| searchResults := []; searchImage := None;
       isAnalyzing := false; error := Some msg |} in
  match result with
  | api.Returned (Some data) =>
      Some ({| searchResults := default [] (products_of data);
               searchImage := Some imageUrl;
               isAnalyzing := false; error := None |}, w)
  | api.Returned None => Some (failed (api.null_read "products"), w)
  | api.Thrown msg => Some (failed msg, w)
  end.

End Upload.
Arguments UploadState : clear implicits.
End Upload.

(** *** components/ProductList.tsx *)

Module ProductList.
Section ProductList.
Context {value : Type} `{!api.Network value}.

Record ListState := {
  products : list wishlistSlice.Product;
  loading : bool;
  error : option string;
}.

Context (products_of : api.ResponseData value → option (list wishlistSlice.Product)).

(** The request [handleSearch] makes, with the bare [axios]: the image
    search when an image is selected, the text search otherwise. *)
Definition search_request (searchTerm : string) (selectedImage : option string)
    (countryCode currency : string) : api.AxiosRequestConfig :=
  let params := [("countryCode", countryCode); ("currency", currency)] in
  match selectedImage with
  | Some image =>
      {| api.url := "/analyze-image"; api.method := "post";
         api.body := api.FormData image; api.params := params;
         api.headers := {[ "Content-Type" := "multipart/form-data" ]};
         api._retry := false |}
  | None =>
      {| api.url := "/search"; api.method := "post";
         api.body := api.Fields [("query", searchTerm)]; api.params := params;
         api.headers := ∅; api._retry := false |}
  end.

Definition handleSearch (searchTerm : string) (selectedImage : option string)
    (countryCode currency : string) (s : ListState * api.World value)
  : ListState * api.World value :=
  let '(state, w) := s in
  if negb (nonempty searchTerm) && negb (bool_decide (is_Some selectedImage)) then
    ({| products := products state; loading := loading state;
        error := Some "Please enter a search term or upload an image." |}, w)
  else
    let request :=
      search_request searchTerm selectedImage countryCode currency in
    let '(reply, w) := api.send api.Axios request w in
    match api.settle request reply with
    | api.Resolved response =>
        match api.data response ≫= products_of with
        | Some found =>
            ({| products := found; loading := false; error := None |}, w)
        | None =>
            ({| products := products state; loading := false;
                error := Some "Invalid response from server." |}, w)
        end
    | api.Rejected _ | api.Raised _ =>
        ({| products := products state; loading := false;
            error := Some "Failed to fetch products. Please try again later." |},
         w)
    end.

End ProductList.
Arguments ListState : clear implicits.
End ProductList.

(** ** Concrete instances, for the runs below *)

Definition demo_product (i t : string) : wishlistSlice.Product :=
  {| wishlistSlice.id := i; wishlistSlice.title := t;
     wishlistSlice.price := "19.99"; wishlistSlice.currency := "USD";
     wishlistSlice.platform := "shop"; wishlistSlice.imageUrl := "";
     wishlistSlice.sourceLink := "" |}.

Definition demo_user : Json.json :=
  Json.JObject [("email", Json.JString "a@b.com");
                ("token", Json.JString "abc");
                ("isAuthenticated", Json.JBool true)].

Definition no_data : api.ResponseData Json.json :=
  {| api.access_token := None; api.refresh_token := None;
     api.user := None; api.error := None |}.

Definition login_data : api.ResponseData Json.json :=
  {| api.access_token := Some "abc"; api.refresh_token := Some "xyz";
     api.user := Some demo_user; api.error := None |}.

Definition token_data (t : string) : api.ResponseData Json.json :=
  {| api.access_token := Some t; api.refresh_token := None;
     api.user := None; api.error := None |}.

Definition replied (s : Z) (d : api.ResponseData Json.json)
  : api.Reply Json.json :=
  api.Responded {| api.status := s; api.data := Some d |}.

(** A reply whose body is [null]. *)
Definition replied_null (s : Z) : api.Reply Json.json :=
  api.Responded {| api.status := s; api.data := None |}.

(** A backend that accepts a login, answers [refreshed] to the refresh
    exchange, [retried] to a request that carries the marker, and 401 to any
    other request. *)
Definition demo_backend (refreshed retried : api.Reply Json.json)
    (history : list api.Sent) (e : api.Sent) : api.Reply Json.json :=
  match api.client e with
  | api.Axios => refreshed
  | api.Api =>
      if api._retry (api.request e) then retried
      else if String.eqb (api.url (api.request e)) "/login"
      then replied 200 login_data
      else replied 401 no_data
  end.

Definition demo_network (refreshed retried : api.Reply Json.json)
  : api.Network Json.json :=
  {| api.API_URL := "/api"; api.backend := demo_backend refreshed retried |}.

Definition demo_world (ls : Storage) : api.World Json.json :=
  {| api.localStorage := ls;
     api.auth := {| authSlice.user := Some demo_user;
                    authSlice.token := Some "abc";
                    authSlice.isAuthenticated := true |};
     api.api_defaults := {[ "Content-Type" := "application/json" ]};
     api.toasts := [];
     api.wire := [] |}.

Definition demo_request : api.AxiosRequestConfig :=
  api.new_request "get" "/wishlist-protected" api.NoBody [] ∅.

(** A backend that gives the same reply to every request. *)
Definition constant_network (reply : api.Reply Json.json)
  : api.Network Json.json :=
  {| api.API_URL := "/api"; api.backend := λ _ _, reply |}.

Definition demo_form : api.Form :=
  {| api.username := "ann"; api.email := "a@b.com"; api.password := "pw" |}.

(** A signed-in application whose mirror holds one product. *)
Definition demo_app (ls : Storage) : app.App Json.json :=
  {| app.world := demo_world ls;
     app.wishlist := {| wishlistSlice.items := [demo_product "p1" "lamp"] |};
     app.successes := []; app.navigations := [] |}.

(** A body carries a list of products when it carries no error. *)
Definition demo_list_of (d : api.ResponseData Json.json)
  : option (list wishlistSlice.Product) :=
  if truthy (api.error d) then None else Some [demo_product "p2" "desk"].

Definition demo_createObjectURL (file : string) : string := "blob:" +:+ file.

(** * Properties *)

(** ** Strings and storage *)

Lemma nonempty_true (s : string) : nonempty s = true ↔ s ≠ "".
Proof. destruct s; simpl; split; intros; congruence. Qed.

Lemma nonempty_false (s : string) : nonempty s = false ↔ s = "".
Proof. destruct s; simpl; split; intros; congruence. Qed.

Lemma truthy_true (x : option string) :
  truthy x = true ↔ ∃ s, x = Some s ∧ s ≠ "".
Proof.
  destruct x as [s|]; simpl.
  - rewrite nonempty_true. split.
    + intros Hs. exists s. split; [reflexivity | exact Hs].
    + intros (s' & Heq & Hs'). congruence.
  - split; [discriminate | intros (s & Heq & _); discriminate].
Qed.

Lemma truthy_Some (s : string) : s ≠ "" → truthy (Some s) = true.
Proof. intros Hs. apply truthy_true. eauto. Qed.

Lemma truthy_false (x : option string) :
  truthy x = false ↔ x = None ∨ x = Some "".
Proof.
  destruct x as [s|]; simpl.
  - rewrite nonempty_false. split.
    + intros ->. right. reflexivity.
    + intros [Hn | Hs]; congruence.
  - split; [left; reflexivity | reflexivity].
Qed.

Lemma getItem_setItem_eq key v (ls : Storage) :
  getItem key (setItem key v ls) = Some v.
Proof. apply lookup_insert_eq. Qed.

Lemma getItem_setItem_ne key key' v (ls : Storage) :
  key ≠ key' → getItem key' (setItem key v ls) = getItem key' ls.
Proof. intros Hne. unfold getItem, setItem. by rewrite lookup_insert_ne. Qed.

Lemma getItem_removeItem_eq key (ls : Storage) :
  getItem key (removeItem key ls) = None.
Proof. apply lookup_delete_eq. Qed.

Lemma getItem_removeItem_ne key key' (ls : Storage) :
  key ≠ key' → getItem key' (removeItem key ls) = getItem key' ls.
Proof. intros Hne. unfold getItem, removeItem. by rewrite lookup_delete_ne. Qed.

Lemma keys_distinct : storage.TOKEN_KEY ≠ storage.USER_KEY.
Proof. discriminate. Qed.

Lemma clearAuthData_token (ls : Storage) :
  getItem storage.TOKEN_KEY (storage.clearAuthData ls) = None.
Proof.
  unfold storage.clearAuthData.
  rewrite getItem_removeItem_ne by (symmetry; apply keys_distinct).
  apply getItem_removeItem_eq.
Qed.

Lemma clearAuthData_user (ls : Storage) :
  getItem storage.USER_KEY (storage.clearAuthData ls) = None.
Proof. unfold storage.clearAuthData. apply getItem_removeItem_eq. Qed.

Lemma clearAuthData_other key (ls : Storage) :
  key ≠ storage.TOKEN_KEY → key ≠ storage.USER_KEY →
  getItem key (storage.clearAuthData ls) = getItem key ls.
Proof.
  intros Ht Hu. unfold storage.clearAuthData.
  rewrite !getItem_removeItem_ne by congruence. reflexivity.
Qed.

Lemma clearAuthData_idemp (ls : Storage) :
  storage.clearAuthData (storage.clearAuthData ls) = storage.clearAuthData ls.
Proof.
  apply map_eq. intros key. fold (getItem key (storage.clearAuthData ls)).
  fold (getItem key (storage.clearAuthData (storage.clearAuthData ls))).
  destruct (decide (key = storage.TOKEN_KEY)) as [->|Ht].
  - by rewrite !clearAuthData_token.
  - destruct (decide (key = storage.USER_KEY)) as [->|Hu].
    + by rewrite !clearAuthData_user.
    + by rewrite !clearAuthData_other.
Qed.

Section storage_properties.
Context {value : Type} `{!JSON value}.

Lemma saveAuthData_token token (user : option value) (ls : Storage) :
  getItem storage.TOKEN_KEY (storage.saveAuthData token user ls)
  = Some (ToString token).
Proof.
  unfold storage.saveAuthData.
  rewrite getItem_setItem_ne by (symmetry; apply keys_distinct).
  apply getItem_setItem_eq.
Qed.

Lemma saveAuthData_user token (user : option value) (ls : Storage) :
  getItem storage.USER_KEY (storage.saveAuthData token user ls)
  = Some (ToString (JSON_stringify <$> user)).
Proof. unfold storage.saveAuthData. apply getItem_setItem_eq. Qed.

Lemma saveAuthData_other key token (user : option value) (ls : Storage) :
  key ≠ storage.TOKEN_KEY → key ≠ storage.USER_KEY →
  getItem key (storage.saveAuthData token user ls) = getItem key ls.
Proof.
  intros Ht Hu. unfold storage.saveAuthData.
  rewrite !getItem_setItem_ne by congruence. reflexivity.
Qed.

Lemma getStoredAuth_absent (ls : Storage) :
  truthy (getItem storage.TOKEN_KEY ls) = false
  ∨ truthy (getItem storage.USER_KEY ls) = false →
  storage.getStoredAuth ls = (None, ls).
Proof.
  intros H. unfold storage.getStoredAuth.
  destruct H as [-> | ->]; simpl; [reflexivity|].
  by rewrite orb_true_r.
Qed.

Lemma getStoredAuth_present (ls : Storage) t u :
  getItem storage.TOKEN_KEY ls = Some t → t ≠ "" →
  getItem storage.USER_KEY ls = Some u → u ≠ "" →
  storage.getStoredAuth ls =
    match JSON_parse u with
    | Some v =>
        (Some {| storage.stored_token := t; storage.stored_user := v |}, ls)
    | None => (None, storage.clearAuthData ls)
    end.
Proof.
  intros Ht Hne Hu Hne'. unfold storage.getStoredAuth.
  rewrite Ht, Hu, !truthy_Some by assumption. reflexivity.
Qed.

(** The storage [getStoredAuth] leaves behind never has the refresh token
    changed, and [getStoredAuth] either keeps the storage or clears it. *)
Lemma getStoredAuth_storage (ls : Storage) :
  (storage.getStoredAuth ls).2 = ls
  ∨ (storage.getStoredAuth ls).2 = storage.clearAuthData ls.
Proof.
  unfold storage.getStoredAuth.
  destruct (negb _ || negb _); [left; reflexivity|].
  destruct (JSON_parse _); [left | right]; reflexivity.
Qed.

(** C5 (as amended).  [getStoredAuth] returns the token and the parsed user
    when both entries are stored, neither is the empty string, and the user
    entry parses; when both are stored and non-empty but the user entry does
    not parse, it removes both keys and returns nothing; when either entry is
    missing or empty it returns nothing and leaves the storage as it is. *)
Theorem getStoredAuth_spec (ls : Storage) :
  (∀ t u v,
     getItem storage.TOKEN_KEY ls = Some t → t ≠ "" →
     getItem storage.USER_KEY ls = Some u → u ≠ "" →
     JSON_parse u = Some v →
     storage.getStoredAuth ls
     = (Some {| storage.stored_token := t; storage.stored_user := v |}, ls))
  ∧ (∀ t u,
     getItem storage.TOKEN_KEY ls = Some t → t ≠ "" →
     getItem storage.USER_KEY ls = Some u → u ≠ "" →
     JSON_parse (value := value) u = None →
     storage.getStoredAuth (value := value) ls
     = (None, storage.clearAuthData ls)
     ∧ getItem storage.TOKEN_KEY (storage.clearAuthData ls) = None
     ∧ getItem storage.USER_KEY (storage.clearAuthData ls) = None)
  ∧ (truthy (getItem storage.TOKEN_KEY ls) = false
     ∨ truthy (getItem storage.USER_KEY ls) = false →
     storage.getStoredAuth (value := value) ls = (None, ls)).
Proof.
  split; [|split].
  - intros t u v Ht Hne Hu Hne' Hparse.
    rewrite (getStoredAuth_present ls t u) by assumption.
    by rewrite Hparse.
  - intros t u Ht Hne Hu Hne' Hparse.
    rewrite (getStoredAuth_present ls t u) by assumption.
    rewrite Hparse.
    split; [reflexivity|].
    split; [apply clearAuthData_token | apply clearAuthData_user].
  - apply getStoredAuth_absent.
Qed.

End storage_properties.

(** C5, the claim as stated fails: a stored token without any user entry is
    not purged.  [getStoredAuth] returns nothing and the token stays. *)
Lemma getStoredAuth_keeps_token_without_user :
  let ls : Storage := {[ "token" := "abc" ]} in
  getItem storage.USER_KEY ls = None
  ∧ (storage.getStoredAuth (value := Json.json) ls).1 = None
  ∧ getItem storage.TOKEN_KEY (storage.getStoredAuth (value := Json.json) ls).2
    ≠ None.
Proof. vm_compute. split; [reflexivity | split; [reflexivity | discriminate]]. Qed.

(** ** The session slice *)

Section authSlice_properties.
Context {value : Type}.

(** C8.  After [setCredentials] and after [logout], [isAuthenticated] is true
    exactly when the token of the slice is a non-empty string; and
    [setCredentials] sets the three fields from its payload alone, whatever
    the slice held before. *)
Theorem session_flag_follows_token
    (payload : authSlice.Credentials value)
    (state state' : authSlice.AuthState value) (ls : Storage) :
  let s1 := authSlice.setCredentials payload state in
  let s2 := (authSlice.logout state ls).1 in
  (authSlice.isAuthenticated s1 = true ↔ authSlice.token_nonempty s1)
  ∧ (authSlice.isAuthenticated s2 = true ↔ authSlice.token_nonempty s2)
  ∧ authSlice.user s1 = authSlice.payload_user payload
  ∧ authSlice.token s1 = authSlice.payload_token payload
  ∧ authSlice.isAuthenticated s1 = truthy (authSlice.payload_token payload)
  ∧ authSlice.setCredentials payload state'
    = authSlice.setCredentials payload state
  ∧ s2 = authSlice.initialState.
Proof.
  simpl. unfold authSlice.token_nonempty. simpl.
  split; [apply truthy_true|].
  split.
  { split; [discriminate | intros (t & Ht & _); discriminate]. }
  repeat split; reflexivity.
Qed.

Lemma logout_clears_storage (state : authSlice.AuthState value) (ls : Storage) :
  (authSlice.logout state ls).2 = storage.clearAuthData ls.
Proof. reflexivity. Qed.

End authSlice_properties.

(** ** The wishlist slice *)

Section wishlistSlice_properties.
Import wishlistSlice.

Lemma find_id_None (l : list Product) (x : string) :
  List.find (λ item, String.eqb (id item) x) l = None → x ∉ id <$> l.
Proof.
  induction l as [|p l IH]; simpl.
  - intros _. apply not_elem_of_nil.
  - destruct (String.eqb_spec (id p) x) as [Heq|Hne]; [discriminate|].
    intros Hfind. rewrite ?fmap_cons, not_elem_of_cons.
    split; [congruence | auto].
Qed.

Lemma find_id_Some (l : list Product) (x : string) p :
  List.find (λ item, String.eqb (id item) x) l = Some p → x ∈ id <$> l.
Proof.
  induction l as [|q l IH]; simpl; [discriminate|].
  rewrite ?fmap_cons, elem_of_cons.
  destruct (String.eqb_spec (id q) x) as [Heq|Hne].
  - intros _. left. congruence.
  - intros Hfind. right. auto.
Qed.

Lemma filter_ids_subset (f : Product → bool) (l : list Product) x :
  x ∈ id <$> List.filter f l → x ∈ id <$> l.
Proof.
  induction l as [|p l IH]; simpl; [done|].
  rewrite ?fmap_cons, elem_of_cons.
  destruct (f p); [|by auto].
  rewrite ?fmap_cons, elem_of_cons. intros [Hx | Hx]; auto.
Qed.

Lemma NoDup_filter_ids (f : Product → bool) (l : list Product) :
  NoDup (id <$> l) → NoDup (id <$> List.filter f l).
Proof.
  induction l as [|p l IH]; simpl; [done|].
  rewrite ?fmap_cons, NoDup_cons. intros [Hnotin Hnd].
  destruct (f p); [|auto].
  rewrite ?fmap_cons. apply NoDup_cons. split; [|auto].
  intros Hin. apply Hnotin. by eapply filter_ids_subset.
Qed.

Lemma addToWishlist_unique payload state :
  unique_ids state → unique_ids (addToWishlist payload state).
Proof.
  unfold unique_ids, ids, addToWishlist. intros Hnd.
  destruct (List.find _ _) eqn:Hfind; [done|]. simpl.
  rewrite fmap_app. apply NoDup_app. split; [done|].
  split; [|apply NoDup_singleton].
  intros x Hx Hx'. apply list_elem_of_singleton in Hx'. subst x.
  by apply find_id_None in Hfind.
Qed.

Lemma addToWishlist_existing payload state :
  id payload ∈ ids state → addToWishlist payload state = state.
Proof.
  unfold ids, addToWishlist. intros Hin.
  destruct (List.find _ _) eqn:Hfind; [done|].
  by apply find_id_None in Hfind.
Qed.

(** C10 (as amended).  [addToWishlist], [removeFromWishlist] and
    [clearWishlist] keep the mirror at one entry per id at most, and
    [setWishlist] yields such a mirror exactly when its payload has no two
    entries with one id; adding a product whose id is in the mirror changes
    nothing, so adding twice is adding once. *)
Theorem wishlist_unique_ids (state : WishlistState) (product : Product)
    (productId : string) (payload : list Product) :
  unique_ids state →
  unique_ids (addToWishlist product state)
  ∧ unique_ids (removeFromWishlist productId state)
  ∧ unique_ids (clearWishlist state)
  ∧ (unique_ids (setWishlist payload state) ↔ NoDup (id <$> payload))
  ∧ (id product ∈ ids state → addToWishlist product state = state)
  ∧ addToWishlist product (addToWishlist product state)
    = addToWishlist product state.
Proof.
  intros Hnd.
  split; [by apply addToWishlist_unique|].
  split; [by apply NoDup_filter_ids|].
  split; [apply NoDup_nil_2|].
  split; [reflexivity|].
  split; [apply addToWishlist_existing|].
  apply addToWishlist_existing.
  unfold ids, addToWishlist.
  destruct (List.find _ _) eqn:Hfind.
  - by apply find_id_Some in Hfind.
  - simpl. rewrite fmap_app. apply elem_of_app. right.
    apply list_elem_of_singleton. reflexivity.
Qed.

End wishlistSlice_properties.

Lemma wishlist_unique_ids_witness :
  let state := {| wishlistSlice.items := [demo_product "p1" "lamp"] |} in
  wishlistSlice.unique_ids state
  ∧ wishlistSlice.addToWishlist (demo_product "p1" "lamp again") state = state
  ∧ wishlistSlice.unique_ids
      (wishlistSlice.addToWishlist (demo_product "p2" "desk") state).
Proof.
  assert (Hnd : wishlistSlice.unique_ids
            {| wishlistSlice.items := [demo_product "p1" "lamp"] |}).
  { apply NoDup_singleton. }
  split; [exact Hnd|].
  split.
  - refine (proj1 (proj2 (proj2 (proj2 (proj2
      (wishlist_unique_ids _ (demo_product "p1" "lamp again") "" [] Hnd))))) _).
    apply list_elem_of_singleton. reflexivity.
  - exact (proj1 (wishlist_unique_ids _ (demo_product "p2" "desk") "" [] Hnd)).
Defined.

(** C10, the claim as stated fails at [setWishlist]: the payload becomes the
    mirror as it is, two entries with one id included. *)
Lemma setWishlist_keeps_duplicates :
  let p := demo_product "p1" "lamp" in
  ¬ wishlistSlice.unique_ids
      (wishlistSlice.setWishlist [p; p] wishlistSlice.initialState).
Proof.
  simpl. unfold wishlistSlice.unique_ids, wishlistSlice.ids. simpl. intros Hnd.
  apply NoDup_cons in Hnd as [Hnotin _]. apply Hnotin.
  apply list_elem_of_singleton. reflexivity.
Qed.

(** ** [JSON.parse] after [JSON.stringify] *)

Section json_roundtrip.
Import Json.
#[local] Arguments String.append : simpl nomatch.

Lemma append_assoc (a b c : string) : (a +:+ b) +:+ c = a +:+ (b +:+ c).
Proof. induction a as [|x a IH]; simpl; [reflexivity | by rewrite IH]. Qed.

Lemma append_empty_r (a : string) : a +:+ "" = a.
Proof. induction a as [|x a IH]; simpl; [reflexivity | by rewrite IH]. Qed.

Lemma length_append (a b : string) :
  String.length (a +:+ b) = (String.length a + String.length b)%nat.
Proof. induction a as [|x a IH]; simpl; [reflexivity | by rewrite IH]. Qed.

(** *** String literals *)

Lemma parse_chars_escape_char (c : ascii) (s : string) :
  parse_chars (escape_char c +:+ s) = prepend (String c "") (parse_chars s).
Proof.
  destruct c as [[|] [|] [|] [|] [|] [|] [|] [|]]; reflexivity.
Qed.

Lemma parse_chars_escape (s rest : string) :
  parse_chars (escape s +:+ String dquote rest) = Some (s, rest).
Proof.
  induction s as [|c s IH]; [reflexivity|].
  cbn [escape]. rewrite append_assoc, parse_chars_escape_char, IH. reflexivity.
Qed.

Lemma parse_chars_quote (s rest : string) :
  ∃ body, quote s +:+ rest = String dquote body
          ∧ parse_chars body = Some (s, rest).
Proof.
  exists (escape s +:+ String dquote rest). split.
  - unfold quote. simpl. by rewrite append_assoc.
  - apply parse_chars_escape.
Qed.

(** *** Number literals *)

Lemma take_digits_stop (rest : string) :
  number_stop rest = true → take_digits rest = ("", rest).
Proof.
  destruct rest as [|c rest]; simpl; [reflexivity|].
  destruct (is_digit c); [discriminate | reflexivity].
Qed.

Lemma take_digits_app (s rest : string) :
  number_stop rest = true →
  take_digits (s +:+ rest) = ((take_digits s).1, (take_digits s).2 +:+ rest).
Proof.
  intros Hstop. induction s as [|c s IH]; simpl.
  - by apply take_digits_stop.
  - destruct (is_digit c); [|reflexivity].
    rewrite IH. by destruct (take_digits s).
Qed.

Lemma scan_digits1_app (s rest l r : string) :
  number_stop rest = true →
  scan_digits1 s = Some (l, r) →
  scan_digits1 (s +:+ rest) = Some (l, r +:+ rest).
Proof.
  intros Hstop. unfold scan_digits1. rewrite take_digits_app by assumption.
  destruct (take_digits s) as [ds r']. simpl.
  destruct ds; [discriminate|]. by intros [= <- <-].
Qed.

Lemma scan_int_app (s rest l r : string) :
  number_stop rest = true →
  scan_int s = Some (l, r) →
  scan_int (s +:+ rest) = Some (l, r +:+ rest).
Proof.
  intros Hstop. destruct s as [|c s]; simpl; [discriminate|].
  destruct (nat_of_ascii c =? 48)%nat; [by intros [= <- <-]|].
  destruct (is_digit c); [|discriminate].
  rewrite take_digits_app by assumption.
  destruct (take_digits s) as [ds r']. simpl. by intros [= <- <-].
Qed.

Lemma scan_frac_app (s rest l r : string) :
  number_stop rest = true →
  scan_frac s = Some (l, r) →
  scan_frac (s +:+ rest) = Some (l, r +:+ rest).
Proof.
  intros Hstop. destruct s as [|c s]; simpl.
  - intros [= <- <-]. destruct rest as [|c rest]; simpl in *; [reflexivity|].
    destruct (nat_of_ascii c =? 46)%nat; [|reflexivity].
    rewrite andb_false_r in Hstop. discriminate.
  - destruct (nat_of_ascii c =? 46)%nat; [|by intros [= <- <-]].
    destruct (scan_digits1 s) as [[ds r']|] eqn:Hd; simpl; [|discriminate].
    intros [= <- <-]. by rewrite (scan_digits1_app _ _ _ _ Hstop Hd).
Qed.

Lemma scan_exp_app (s rest l r : string) :
  number_stop rest = true →
  scan_exp s = Some (l, r) →
  scan_exp (s +:+ rest) = Some (l, r +:+ rest).
Proof.
  intros Hstop. destruct s as [|c s]; simpl.
  - intros [= <- <-]. destruct rest as [|c rest]; simpl in *; [reflexivity|].
    destruct (_ || _); [|reflexivity].
    rewrite andb_false_r in Hstop. discriminate.
  - destruct (_ || _); [|by intros [= <- <-]].
    destruct s as [|sg s]; simpl; [discriminate|].
    destruct (_ || _).
    + destruct (scan_digits1 s) as [[ds r']|] eqn:Hd; simpl; [|discriminate].
      intros [= <- <-]. by rewrite (scan_digits1_app _ _ _ _ Hstop Hd).
    + destruct (scan_digits1 (String sg s)) as [[ds r']|] eqn:Hd; simpl;
        [|discriminate].
      intros [= <- <-].
      change (String sg (s +:+ rest)) with (String sg s +:+ rest).
      by rewrite (scan_digits1_app _ _ _ _ Hstop Hd).
Qed.

Lemma scan_number_app (s rest l r : string) :
  number_stop rest = true →
  scan_number s = Some (l, r) →
  scan_number (s +:+ rest) = Some (l, r +:+ rest).
Proof.
  intros Hstop. unfold scan_number.
  assert (Hsign : scan_sign s = ("", s) ∧ scan_sign (s +:+ rest) = ("", s +:+ rest)
                  ∨ (∃ s', s = String "-" s'
                        ∧ scan_sign s = ("-", s')
                        ∧ scan_sign (s +:+ rest) = ("-", s' +:+ rest))
                  ∨ s = "").
  { destruct s as [|c s]; [by right; right|]. simpl.
    destruct (nat_of_ascii c =? 45)%nat eqn:Hc; [|by left].
    right; left. exists s. apply Nat.eqb_eq in Hc.
    assert (c = "-"%char) as ->.
    { rewrite <- (ascii_nat_embedding c), Hc. reflexivity. }
    done. }
  destruct Hsign as [[-> ->] | [(s' & -> & -> & ->) | ->]];
    [| |simpl; discriminate].
  - destruct (scan_int s) as [[i s2]|] eqn:Hi; simpl; [|discriminate].
    rewrite (scan_int_app _ _ _ _ Hstop Hi). simpl.
    destruct (scan_frac s2) as [[f s3]|] eqn:Hf; simpl; [|discriminate].
    rewrite (scan_frac_app _ _ _ _ Hstop Hf). simpl.
    destruct (scan_exp s3) as [[e s4]|] eqn:He; simpl; [|discriminate].
    rewrite (scan_exp_app _ _ _ _ Hstop He). simpl.
    by intros [= <- <-].
  - destruct (scan_int s') as [[i s2]|] eqn:Hi; simpl; [|discriminate].
    rewrite (scan_int_app _ _ _ _ Hstop Hi). simpl.
    destruct (scan_frac s2) as [[f s3]|] eqn:Hf; simpl; [|discriminate].
    rewrite (scan_frac_app _ _ _ _ Hstop Hf). simpl.
    destruct (scan_exp s3) as [[e s4]|] eqn:He; simpl; [|discriminate].
    rewrite (scan_exp_app _ _ _ _ Hstop He). simpl.
    by intros [= <- <-].
Qed.

(** *** Values *)

Lemma delimited_number_stop (rest : string) :
  delimited rest = true → number_stop rest = true.
Proof.
  destruct rest as [|c rest]; [reflexivity|].
  destruct c as [[|] [|] [|] [|] [|] [|] [|] [|]]; try discriminate; reflexivity.
Qed.

Lemma starts_number_opens (c : ascii) :
  starts_number c = true → opens_value c = true.
Proof.
  destruct c as [[|] [|] [|] [|] [|] [|] [|] [|]]; try discriminate; reflexivity.
Qed.

Lemma valid_number_head (literal : string) :
  valid_number literal = true →
  ∃ c l, literal = String c l ∧ starts_number c = true.
Proof.
  unfold valid_number, scan_number.
  destruct literal as [|c l]; [discriminate|]. intros Hvalid.
  exists c, l. split; [reflexivity|].
  unfold starts_number. simpl in Hvalid.
  destruct (nat_of_ascii c =? 45)%nat eqn:Hminus; [by rewrite orb_true_r|].
  rewrite orb_false_r. simpl in Hvalid.
  destruct (nat_of_ascii c =? 48)%nat eqn:Hzero.
  - apply Nat.eqb_eq in Hzero. unfold is_digit. rewrite Hzero. reflexivity.
  - destruct (is_digit c); [reflexivity | discriminate].
Qed.

Lemma parse_value_number (c : ascii) (s : string) (fuel : nat) :
  starts_number c = true →
  parse_value (S fuel) (String c s)
  = '(lit, r) ← scan_number (String c s); Some (JNumber lit, r).
Proof.
  destruct c as [[|] [|] [|] [|] [|] [|] [|] [|]]; try discriminate;
    intros _; reflexivity.
Qed.

Lemma stringify_head (v : json) :
  serializable v = true →
  ∃ c s, stringify v = String c s ∧ opens_value c = true.
Proof.
  destruct v as [|[|]|literal|s|items|members]; simpl; intros Hser;
    try (eexists _, _; split; [reflexivity | reflexivity]).
  apply valid_number_head in Hser as (c & l & -> & Hc).
  exists c, l. split; [reflexivity | by apply starts_number_opens].
Qed.

Lemma skip_ws_head (c : ascii) (s : string) :
  opens_value c = true → skip_ws (String c s) = String c s.
Proof.
  unfold opens_value. simpl. destruct (is_ws c); [discriminate | reflexivity].
Qed.

Lemma skip_ws_delimited (rest : string) :
  delimited rest = true → skip_ws rest = rest.
Proof.
  destruct rest as [|c rest]; [reflexivity|].
  destruct c as [[|] [|] [|] [|] [|] [|] [|] [|]]; try discriminate; reflexivity.
Qed.

Lemma parse_elements_printed pv (items : list json) :
  ∀ (n : nat) (rest : string),
  items ≠ [] → (length items ≤ n)%nat → Forall (parses pv) items →
  parse_elements pv n (join_comma (map stringify items) +:+ "]" +:+ rest)
  = Some (items, rest).
Proof.
  induction items as [|v items IH]; [done|].
  intros n rest _ Hlen Hall. apply Forall_cons in Hall as [Hv Hall].
  destruct n as [|n]; [simpl in Hlen; lia|].
  destruct items as [|v' items].
  - simpl. rewrite Hv by reflexivity. reflexivity.
  - change (join_comma (map stringify (v :: v' :: items)))
      with (stringify v +:+ "," +:+ join_comma (map stringify (v' :: items))).
    rewrite !append_assoc.
    cbn [parse_elements]. rewrite Hv by reflexivity.
    cbn [mbind option_bind]. simpl skip_ws. cbv iota beta.
    change (nat_of_ascii "," =? 44)%nat with true. cbv iota.
    assert (Hrest : parse_elements pv n
              (join_comma (map stringify (v' :: items)) +:+ "]" +:+ rest)
            = Some (v' :: items, rest)).
    { apply IH; [done | simpl in *; lia | done]. }
    simpl in Hrest |- *. rewrite Hrest. reflexivity.
Qed.

Lemma parse_members_printed pv (members : list (string * json)) :
  ∀ (n : nat) (rest : string),
  members ≠ [] → (length members ≤ n)%nat →
  Forall (λ kv, parses pv kv.2) members →
  parse_members pv n (join_comma (map member_text members) +:+ "}" +:+ rest)
  = Some (members, rest).
Proof.
  induction members as [|[k v] members IH]; [done|].
  intros n rest _ Hlen Hall. apply Forall_cons in Hall as [Hv Hall].
  simpl in Hv. destruct n as [|n]; [simpl in Hlen; lia|].
  destruct members as [|kv' members].
  - cbn [map join_comma]. unfold member_text at 1. cbn [fst snd].
    rewrite !append_assoc.
    destruct (parse_chars_quote k (":" +:+ stringify v +:+ "}" +:+ rest))
      as (body & -> & Hbody).
    cbn [parse_members]. simpl skip_ws. cbv iota beta.
    change (nat_of_ascii dquote =? 34)%nat with true. cbv iota.
    rewrite Hbody. cbn [mbind option_bind]. simpl skip_ws. cbv iota beta.
    change (nat_of_ascii ":" =? 58)%nat with true. cbv iota.
    rewrite Hv by reflexivity. reflexivity.
  - change (join_comma (map member_text ((k, v) :: kv' :: members)))
      with (member_text (k, v) +:+ ","
            +:+ join_comma (map member_text (kv' :: members))).
    unfold member_text at 1. cbn [fst snd].
    rewrite !append_assoc.
    match goal with
    | |- parse_members _ _ (quote k +:+ ?tail) = _ =>
        destruct (parse_chars_quote k tail) as (body & -> & Hbody)
    end.
    cbn [parse_members]. simpl skip_ws. cbv iota beta.
    change (nat_of_ascii dquote =? 34)%nat with true. cbv iota.
    rewrite Hbody. cbn [mbind option_bind]. simpl skip_ws. cbv iota beta.
    change (nat_of_ascii ":" =? 58)%nat with true. cbv iota.
    rewrite Hv by reflexivity.
    cbn [mbind option_bind]. simpl skip_ws. cbv iota beta.
    change (nat_of_ascii "," =? 44)%nat with true. cbv iota.
    assert (Hrest : parse_members pv n
              (join_comma (map member_text (kv' :: members)) +:+ "}" +:+ rest)
            = Some (kv' :: members, rest)).
    { apply IH; [done | simpl in *; lia | done]. }
    simpl in Hrest |- *. rewrite Hrest. reflexivity.
Qed.

Lemma valid_number_scan (literal : string) :
  valid_number literal = true → scan_number literal = Some (literal, "").
Proof.
  unfold valid_number.
  destruct (scan_number literal) as [[l [|c r]]|]; try discriminate.
  intros Heq. apply String.eqb_eq in Heq. by subst l.
Qed.

Lemma parse_value_array (fuel : nat) (c : ascii) (s : string) :
  opens_value c = true →
  parse_value (S fuel) (String "[" (String c s))
  = '(vs, r) ← parse_elements (parse_value fuel) fuel (String c s);
    Some (JArray vs, r).
Proof.
  intros Hc. cbn [parse_value]. simpl skip_ws at 1. cbv iota beta zeta.
  change (nat_of_ascii "[" =? 123)%nat with false.
  change (nat_of_ascii "[" =? 91)%nat with true. cbv iota.
  rewrite skip_ws_head by assumption.
  unfold opens_value in Hc.
  destruct (nat_of_ascii c =? 93)%nat; [|reflexivity].
  rewrite andb_false_r in Hc. discriminate.
Qed.

Lemma parse_value_object (fuel : nat) (s : string) :
  parse_value (S fuel) (String "{" (String dquote s))
  = '(kvs, r) ← parse_members (parse_value fuel) fuel (String dquote s);
    Some (JObject kvs, r).
Proof. reflexivity. Qed.

Lemma join_comma_head (v : json) (items : list json) :
  serializable v = true →
  ∃ c s, join_comma (map stringify (v :: items)) = String c s
         ∧ opens_value c = true.
Proof.
  intros Hser. destruct (stringify_head v Hser) as (c & s & Hs & Hc).
  destruct items as [|v' items]; simpl; rewrite Hs; eauto.
Qed.

Lemma size_pos (v : json) : (1 ≤ size v)%nat.
Proof. destruct v; simpl; lia. Qed.

Lemma list_sum_elem {A} (f : A → nat) (l : list A) (x : A) :
  x ∈ l → (f x ≤ list_sum (map f l))%nat.
Proof.
  induction l as [|y l IH]; [by intros ?%elem_of_nil|].
  rewrite elem_of_cons. simpl. intros [-> | Hin]; [lia|].
  specialize (IH Hin). lia.
Qed.

Lemma list_sum_length {A} (f : A → nat) (l : list A) :
  (∀ x, 1 ≤ f x)%nat → (length l ≤ list_sum (map f l))%nat.
Proof.
  intros Hf. induction l as [|y l IH]; simpl; [lia|].
  specialize (Hf y). lia.
Qed.

(** With fuel for its nodes, the parser reads a printed value back and
    stops where the value ends. *)
Lemma parse_value_stringify (v : json) :
  serializable v = true →
  ∀ n, (size v ≤ n)%nat → parses (parse_value n) v.
Proof.
  induction v as [|b|literal|s|items IH|members IH] using json_tree_ind;
    intros Hser n Hn rest Hrest;
    (destruct n as [|n]; [pose proof (size_pos JNull); simpl in Hn; lia|]).
  - reflexivity.
  - destruct b; reflexivity.
  - simpl in Hser. pose proof (valid_number_scan _ Hser) as Hscan.
    destruct (valid_number_head _ Hser) as (c & l & -> & Hc).
    cbn [stringify].
    change (String c l +:+ rest) with (String c (l +:+ rest)).
    rewrite parse_value_number by assumption.
    change (String c (l +:+ rest)) with (String c l +:+ rest).
    rewrite (scan_number_app _ rest _ _ (delimited_number_stop _ Hrest) Hscan).
    reflexivity.
  - cbn [stringify].
    destruct (parse_chars_quote s rest) as (body & -> & Hbody).
    cbn [parse_value]. simpl skip_ws. cbv iota beta zeta.
    change (nat_of_ascii dquote =? 123)%nat with false.
    change (nat_of_ascii dquote =? 91)%nat with false.
    change (nat_of_ascii dquote =? 34)%nat with true. cbv iota.
    rewrite Hbody. reflexivity.
  - destruct items as [|v items]; [reflexivity|].
    simpl in Hser. apply andb_true_iff in Hser as [Hv Hitems].
    destruct (join_comma_head v items Hv) as (c & s & Hjoin & Hc).
    cbn [stringify].
    change ("[" +:+ ?x) with (String "[" x). cbn [String.append].
    rewrite append_assoc. rewrite Hjoin at 1.
    change (String c s +:+ ?x) with (String c (s +:+ x)).
    rewrite parse_value_array by assumption.
    change (String c (s +:+ ?x)) with (String c s +:+ x).
    rewrite <- Hjoin.
    rewrite parse_elements_printed; [reflexivity | done | |].
    + simpl in Hn. pose proof (list_sum_length size (v :: items) size_pos).
      simpl in *. lia.
    + apply Forall_forall. intros x Hx.
      rewrite Forall_forall in IH. apply IH; [done| |].
      * assert (Hall : forallb serializable (v :: items) = true).
        { simpl. by rewrite Hv, Hitems. }
        rewrite forallb_forall in Hall. apply Hall. by apply list_elem_of_In.
      * pose proof (list_sum_elem size (v :: items) x Hx).
        simpl in *. lia.
  - destruct members as [|[k v] members]; [reflexivity|].
    simpl in Hser.
    cbn [stringify].
    change (map _ ((k, v) :: members))
      with (map member_text ((k, v) :: members)).
    assert (Hhead : ∃ s, join_comma (map member_text ((k, v) :: members))
                         = String dquote s).
    { destruct members; simpl; unfold member_text, quote; simpl; eauto. }
    destruct Hhead as (s & Hjoin).
    change ("{" +:+ ?x) with (String "{" x). cbn [String.append].
    rewrite append_assoc. rewrite Hjoin at 1.
    change (String dquote s +:+ ?x) with (String dquote (s +:+ x)).
    rewrite parse_value_object.
    change (String dquote (s +:+ ?x)) with (String dquote s +:+ x).
    rewrite <- Hjoin.
    rewrite parse_members_printed; [reflexivity | done | |].
    + simpl in Hn.
      pose proof (list_sum_length (λ kv : string * json, size kv.2)
                    ((k, v) :: members) (λ kv, size_pos kv.2)).
      simpl in *. lia.
    + apply Forall_forall. intros kv Hkv.
      rewrite Forall_forall in IH. apply IH; [done| |].
      * assert (Hall : forallb (λ kv : string * json, serializable kv.2)
                         ((k, v) :: members) = true) by exact Hser.
        rewrite forallb_forall in Hall. apply Hall. by apply list_elem_of_In.
      * pose proof (list_sum_elem (λ kv : string * json, size kv.2)
                      ((k, v) :: members) kv Hkv).
        simpl in *. lia.
Qed.

Lemma join_comma_length {A} (size_of : A → nat) (text : A → string)
    (l : list A) :
  Forall (λ x, size_of x ≤ String.length (text x))%nat l →
  (list_sum (map size_of l) ≤ String.length (join_comma (map text l)) + 1)%nat.
Proof.
  induction l as [|x l IH]; [simpl; lia|].
  intros [Hx Hl]%Forall_cons. specialize (IH Hl).
  destruct l as [|y l]; [simpl in *; lia|].
  change (join_comma (map text (x :: y :: l)))
    with (text x +:+ "," +:+ join_comma (map text (y :: l))).
  rewrite !length_append. simpl in *. lia.
Qed.

Lemma size_le_length (v : json) :
  serializable v = true → (size v ≤ String.length (stringify v))%nat.
Proof.
  induction v as [|b|literal|s|items IH|members IH] using json_tree_ind;
    intros Hser.
  - simpl. lia.
  - destruct b; simpl; lia.
  - simpl in *. destruct (valid_number_head _ Hser) as (c & l & -> & _).
    simpl. lia.
  - simpl. lia.
  - cbn [stringify size]. rewrite !length_append.
    assert (Hall : Forall (λ x, size x ≤ String.length (stringify x))%nat items).
    { apply Forall_forall. intros x Hx. rewrite Forall_forall in IH.
      apply IH; [done|]. simpl in Hser. rewrite forallb_forall in Hser.
      apply Hser. by apply list_elem_of_In. }
    pose proof (join_comma_length size stringify items Hall). simpl. lia.
  - cbn [stringify size]. rewrite !length_append.
    change (map _ members) with (map member_text members) at 2.
    assert (Hall : Forall (λ kv : string * json,
                     size kv.2 ≤ String.length (member_text kv))%nat members).
    { apply Forall_forall. intros kv Hkv. rewrite Forall_forall in IH.
      unfold member_text. rewrite !length_append.
      assert (size kv.2 ≤ String.length (stringify kv.2))%nat; [|lia].
      apply IH; [done|]. simpl in Hser. rewrite forallb_forall in Hser.
      apply Hser. by apply list_elem_of_In. }
    pose proof (join_comma_length (λ kv : string * json, size kv.2)
                  member_text members Hall).
    simpl. lia.
Qed.

(** The round trip of the platform's JSON: every serializable value is
    read back from its text. *)
Lemma parse_stringify (v : json) :
  serializable v = true → parse (stringify v) = Some v.
Proof.
  intros Hser. unfold parse.
  pose proof (size_le_length v Hser) as Hsize.
  pose proof (parse_value_stringify v Hser
                (S (String.length (stringify v))) ltac:(lia) "" eq_refl) as Hp.
  rewrite append_empty_r in Hp. rewrite Hp. reflexivity.
Qed.

Lemma stringify_nonempty (v : json) :
  serializable v = true → stringify v ≠ "".
Proof.
  intros Hser. destruct (stringify_head v Hser) as (c & s & -> & _).
  discriminate.
Qed.

End json_roundtrip.

(** ** The HTTP client *)

Section api_properties.
Import api.
Context {value : Type} `{!api.Network value}.
Implicit Types (w : World value) (config : AxiosRequestConfig).
Implicit Types (reply : Reply value) (error : AxiosError value).
Implicit Types (r : AxiosResponse value).

Lemma api_unfold fuel config w :
  api (S fuel) config w =
  let first := prepare w config in
  let '(reply, w1) := send Api first w in
  match settle first reply with
  | Resolved response => Some (Resolved response, w1)
  | Rejected error => on_rejected (api fuel) error w1
  | Raised msg => Some (Raised msg, w1)
  end.
Proof. reflexivity. Qed.

Lemma set_header_retry name v config :
  _retry (set_header name v config) = _retry config.
Proof. reflexivity. Qed.

Lemma prepare_retry w config : _retry (prepare w config) = _retry config.
Proof.
  unfold prepare, request_interceptor. by destruct (truthy _).
Qed.

Lemma prepare_url w config : url (prepare w config) = url config.
Proof. unfold prepare, request_interceptor. by destruct (truthy _). Qed.

Lemma prepare_method w config : method (prepare w config) = method config.
Proof. unfold prepare, request_interceptor. by destruct (truthy _). Qed.

Lemma prepare_body w config : body (prepare w config) = body config.
Proof. unfold prepare, request_interceptor. by destruct (truthy _). Qed.

Lemma prepare_params w config : params (prepare w config) = params config.
Proof. unfold prepare, request_interceptor. by destruct (truthy _). Qed.

Lemma settle_rejected_config config reply error :
  settle config reply = Rejected error → api.config error = config.
Proof.
  unfold settle. destruct reply as [r|msg].
  - destruct (_ && _); [discriminate|]. by intros [= <-].
  - by intros [= <-].
Qed.

(** axios settles a request with a response or with an [AxiosError]. *)
Lemma settle_not_raised config reply msg : settle config reply ≠ Raised msg.
Proof.
  unfold settle. destruct reply as [r|m]; [|discriminate].
  by destruct (_ && _).
Qed.

Lemma settle_401 config r :
  status r = 401 →
  settle config (Responded r)
  = Rejected {| api.config := config; response := Some r;
                message := "Request failed with status code "
                           +:+ pretty (status r) |}.
Proof. intros H401. unfold settle. rewrite H401. reflexivity. Qed.

(** A request that carries the marker is sent once and its outcome is
    final, whatever the reply. *)
Lemma api_marked fuel config w :
  _retry config = true →
  api (S fuel) config w
  = Some (settle (prepare w config)
            (backend (wire w) (via Api (prepare w config))),
          (send Api (prepare w config) w).2).
Proof.
  intros Hretry. rewrite api_unfold. simpl.
  destruct (settle _ _) as [response|error|msg] eqn:Hsettle;
    [reflexivity| |reflexivity].
  unfold on_rejected.
  rewrite (settle_rejected_config _ _ _ Hsettle), prepare_retry, Hretry.
  by rewrite andb_false_r.
Qed.

Lemma on_rejected_401_unmarked retry error w :
  status_is_401 error = true → _retry (config error) = false →
  on_rejected retry error w =
  let originalRequest := set_retry true (config error) in
  let error' := {| config := originalRequest; response := response error;
                   message := message error |} in
  let refreshToken := getItem "refresh_token" (localStorage w) in
  if truthy refreshToken then
    let request := refresh_request (ToString refreshToken) in
    let '(reply, w) := send Axios request w in
    let caught (refreshError : Settled value) (shown : string) :=
      Some (refreshError,
            set_localStorage storage.clearAuthData
              (dispatch_logout (toast_error shown w))) in
    match settle request reply with
    | Resolved response =>
        match data response with
        | Some body =>
            let newAccessToken := ToString (access_token body) in
            let w := set_localStorage (setItem "token" newAccessToken) w in
            let w :=
              set_api_defaults
                (insert "Authorization" ("Bearer " +:+ newAccessToken)) w in
            retry (set_header "Authorization" ("Bearer " +:+ newAccessToken)
                     originalRequest) w
        | None =>
            caught (Raised (null_read "access_token"))
                   (null_read "access_token")
        end
    | Rejected refreshError =>
        match refresh_failure_toast refreshError with
        | Some shown => caught (Rejected refreshError) shown
        | None => Some (Raised (null_read "error"), w)
        end
    | Raised refreshError => caught (Raised refreshError) refreshError
    end
  else
    Some (Rejected error',
          set_localStorage storage.clearAuthData
            (dispatch_logout (toast_error session_expired w))).
Proof. intros H401 Hretry. unfold on_rejected. by rewrite H401, Hretry. Qed.

Lemma api_401_no_refresh_token (fuel : nat) (method url : string)
    (body : RequestBody) (params : list (string * string)) (hdrs : Headers)
    w r :
  let config := new_request method url body params hdrs in
  (1 ≤ fuel)%nat →
  first_reply w config = Responded r →
  status r = 401 →
  truthy (getItem "refresh_token" (localStorage w)) = false →
  ∃ w',
    api fuel config w
    = Some (Rejected {| api.config := set_retry true (prepare w config);
                        response := Some r;
                        message := "Request failed with status code "
                                   +:+ pretty (status r) |}, w')
    ∧ wire w' = wire w ++ [via Api (prepare w config)]
    ∧ toasts w' = toasts w ++ [session_expired]
    ∧ auth w' = authSlice.initialState
    ∧ localStorage w' = storage.clearAuthData (localStorage w)
    ∧ api_defaults w' = api_defaults w.
Proof.
  intros config Hfuel Hreply H401 Hnone.
  destruct fuel as [|fuel]; [lia|].
  rewrite api_unfold. cbn zeta. unfold send. fold (via Api (prepare w config)).
  unfold first_reply in Hreply. rewrite Hreply, (settle_401 _ _ H401).
  rewrite on_rejected_401_unmarked; cycle 1.
  { unfold status_is_401. simpl. rewrite H401. reflexivity. }
  { simpl. by rewrite prepare_retry. }
  cbn zeta. cbn [localStorage]. rewrite Hnone.
  eexists. split; [reflexivity|]. simpl.
  repeat split; try reflexivity. apply clearAuthData_idemp.
Qed.

Lemma api_401_refresh (fuel : nat) (method url : string)
    (body : RequestBody) (params : list (string * string)) (hdrs : Headers)
    w r (rt : string) :
  let config := new_request method url body params hdrs in
  let first := via Api (prepare w config) in
  let refresh := via Axios (refresh_request rt) in
  first_reply w config = Responded r →
  status r = 401 →
  getItem "refresh_token" (localStorage w) = Some rt → rt ≠ "" →
  api (S fuel) config w
  = let w1 := {| localStorage := localStorage w; auth := auth w;
                 api_defaults := api_defaults w; toasts := toasts w;
                 wire := wire w ++ [first; refresh] |} in
    let caught (refreshError : Settled value) (shown : string) :=
      Some (refreshError,
            set_localStorage storage.clearAuthData
              (dispatch_logout (toast_error shown w1))) in
    match settle (refresh_request rt) (refresh_reply w config rt) with
    | Resolved response =>
        match data response with
        | Some body =>
            let new := ToString (access_token body) in
            api fuel
              (set_header "Authorization" ("Bearer " +:+ new)
                 (set_retry true (prepare w config)))
              (set_api_defaults (insert "Authorization" ("Bearer " +:+ new))
                 (set_localStorage (setItem "token" new) w1))
        | None =>
            caught (Raised (null_read "access_token"))
                   (null_read "access_token")
        end
    | Rejected refreshError =>
        match refresh_failure_toast refreshError with
        | Some shown => caught (Rejected refreshError) shown
        | None => Some (Raised (null_read "error"), w1)
        end
    | Raised refreshError => caught (Raised refreshError) refreshError
    end.
Proof.
  intros config first refresh Hreply H401 Hrt Hne.
  rewrite api_unfold. cbn zeta. unfold send.
  fold (via Api (prepare w config)). fold first.
  unfold first_reply in Hreply. fold first in Hreply.
  rewrite Hreply, (settle_401 _ _ H401).
  rewrite on_rejected_401_unmarked; cycle 1.
  { unfold status_is_401. simpl. rewrite H401. reflexivity. }
  { simpl. by rewrite prepare_retry. }
  cbn zeta. cbn [localStorage]. rewrite Hrt, (truthy_Some _ Hne).
  change (ToString (Some rt)) with rt. unfold send. cbn [wire].
  fold (via Axios (refresh_request rt)). fold refresh.
  unfold refresh_reply. fold first refresh.
  rewrite <- !app_assoc. reflexivity.
Qed.

Lemma api_401_refresh_rejected (fuel : nat) (method url : string)
    (body : RequestBody) (params : list (string * string)) (hdrs : Headers)
    w r (rt : string) (refreshError : AxiosError value) (shown : string) :
  let config := new_request method url body params hdrs in
  (1 ≤ fuel)%nat →
  first_reply w config = Responded r →
  status r = 401 →
  getItem "refresh_token" (localStorage w) = Some rt → rt ≠ "" →
  settle (refresh_request rt) (refresh_reply w config rt)
  = Rejected refreshError →
  refresh_failure_toast refreshError = Some shown →
  ∃ w',
    api fuel config w = Some (Rejected refreshError, w')
    ∧ wire w' = wire w ++ [via Api (prepare w config);
                           via Axios (refresh_request rt)]
    ∧ toasts w' = toasts w ++ [shown]
    ∧ auth w' = authSlice.initialState
    ∧ localStorage w' = storage.clearAuthData (localStorage w)
    ∧ api_defaults w' = api_defaults w.
Proof.
  intros config Hfuel Hreply H401 Hrt Hne Hrefresh Hshown.
  destruct fuel as [|fuel]; [lia|]. subst config.
  rewrite (api_401_refresh fuel method url body params hdrs w r rt)
    by assumption.
  cbn zeta. rewrite Hrefresh, Hshown.
  eexists. split; [reflexivity|]. simpl.
  repeat split; try reflexivity. apply clearAuthData_idemp.
Qed.

(** The refresh exchange failed and the response of its error has the body
    [null]: the [catch] raises before it shows anything. *)
Lemma api_401_refresh_raised (fuel : nat) (method url : string)
    (body : RequestBody) (params : list (string * string)) (hdrs : Headers)
    w r (rt : string) (refreshError : AxiosError value) :
  let config := new_request method url body params hdrs in
  (1 ≤ fuel)%nat →
  first_reply w config = Responded r →
  status r = 401 →
  getItem "refresh_token" (localStorage w) = Some rt → rt ≠ "" →
  settle (refresh_request rt) (refresh_reply w config rt)
  = Rejected refreshError →
  refresh_failure_toast refreshError = None →
  ∃ w',
    api fuel config w = Some (Raised (null_read "error"), w')
    ∧ wire w' = wire w ++ [via Api (prepare w config);
                           via Axios (refresh_request rt)]
    ∧ toasts w' = toasts w
    ∧ auth w' = auth w
    ∧ localStorage w' = localStorage w
    ∧ api_defaults w' = api_defaults w.
Proof.
  intros config Hfuel Hreply H401 Hrt Hne Hrefresh Hshown.
  destruct fuel as [|fuel]; [lia|]. subst config.
  rewrite (api_401_refresh fuel method url body params hdrs w r rt)
    by assumption.
  cbn zeta. rewrite Hrefresh, Hshown.
  eexists. split; [reflexivity|]. by simpl.
Qed.

(** The refresh exchange was answered 2xx with the body [null]: reading the
    new token raises in the [try], and the [catch] shows the message of that
    error and logs out. *)
Lemma api_401_refresh_null (fuel : nat) (method url : string)
    (body : RequestBody) (params : list (string * string)) (hdrs : Headers)
    w r (rt : string) (response : AxiosResponse value) :
  let config := new_request method url body params hdrs in
  (1 ≤ fuel)%nat →
  first_reply w config = Responded r →
  status r = 401 →
  getItem "refresh_token" (localStorage w) = Some rt → rt ≠ "" →
  settle (refresh_request rt) (refresh_reply w config rt) = Resolved response →
  data response = None →
  ∃ w',
    api fuel config w = Some (Raised (null_read "access_token"), w')
    ∧ wire w' = wire w ++ [via Api (prepare w config);
                           via Axios (refresh_request rt)]
    ∧ toasts w' = toasts w ++ [null_read "access_token"]
    ∧ auth w' = authSlice.initialState
    ∧ localStorage w' = storage.clearAuthData (localStorage w)
    ∧ api_defaults w' = api_defaults w.
Proof.
  intros config Hfuel Hreply H401 Hrt Hne Hrefresh Hnull.
  destruct fuel as [|fuel]; [lia|]. subst config.
  rewrite (api_401_refresh fuel method url body params hdrs w r rt)
    by assumption.
  cbn zeta. rewrite Hrefresh, Hnull.
  eexists. split; [reflexivity|]. simpl.
  repeat split; try reflexivity. apply clearAuthData_idemp.
Qed.

Lemma refresh_failure_toast_None (refreshError : AxiosError value) :
  refresh_failure_toast refreshError = None
  ↔ ∃ r, response refreshError = Some r ∧ data r = None.
Proof.
  unfold refresh_failure_toast.
  destruct (response refreshError) as [r|]; [|split; [done|by intros (? & ? & ?)]].
  destruct (data r) as [d|] eqn:Hd; simpl.
  - split; [done|]. intros (r' & [= <-] & Hnull). congruence.
  - split; [|done]. intros _. by exists r.
Qed.

Lemma prepare_authorization w config (tok : string) :
  headers config !! "Authorization" = Some ("Bearer " +:+ tok) →
  getItem "token" (localStorage w) = Some tok →
  headers (prepare w config) !! "Authorization" = Some ("Bearer " +:+ tok).
Proof.
  intros Hheader Htoken. unfold prepare, request_interceptor.
  rewrite Htoken. destruct (truthy (Some tok)); simpl.
  - apply lookup_insert_eq.
  - apply lookup_union_Some_l. exact Hheader.
Qed.

(** *** Termination and the bound on what one request sends *)

Lemma api_keeps_refresh_token (fuel : nat) :
  ∀ config w (settled : Settled value) w',
  api fuel config w = Some (settled, w') →
  getItem "refresh_token" (localStorage w')
  = getItem "refresh_token" (localStorage w).
Proof.
  induction fuel as [|fuel IH]; intros config w settled w'; [discriminate|].
  rewrite api_unfold. cbn zeta. unfold send.
  destruct (settle _ _) as [response|error|msg];
    [by intros [= _ <-]| |by intros [= _ <-]].
  unfold on_rejected.
  destruct (status_is_401 error && negb _); [|by intros [= _ <-]].
  cbn [localStorage].
  assert (Hcaught : ∀ w0 : World value,
            getItem "refresh_token"
              (localStorage (set_localStorage storage.clearAuthData
                               (dispatch_logout w0)))
            = getItem "refresh_token" (localStorage w0)).
  { intros w0. simpl. rewrite clearAuthData_idemp.
    by apply clearAuthData_other. }
  destruct (truthy _).
  - unfold send. destruct (settle _ _) as [response|refreshError|msg].
    + destruct (data response) as [d|].
      * intros Hretry. apply IH in Hretry. rewrite Hretry. simpl.
        by apply getItem_setItem_ne.
      * intros [= _ <-]. by rewrite Hcaught.
    + destruct (refresh_failure_toast refreshError).
      * intros [= _ <-]. by rewrite Hcaught.
      * by intros [= _ <-].
    + intros [= _ <-]. by rewrite Hcaught.
  - intros [= _ <-]. by rewrite Hcaught.
Qed.

(** Two units of fuel are enough for every request: [api] answers, and
    what it put on the wire is the request, then at most one refresh
    exchange, then at most one retry. *)
Lemma api_terminates (fuel : nat) config w :
  (2 ≤ fuel)%nat →
  ∃ (settled : Settled value) w' (sent : list Sent),
    api fuel config w = Some (settled, w')
    ∧ wire w' = wire w ++ via Api (prepare w config) :: sent
    ∧ (sent = []
       ∨ (∃ rt, sent = [via Axios (refresh_request rt)])
       ∨ (∃ rt second, sent = [via Axios (refresh_request rt); via Api second]
                       ∧ url second = url config)).
Proof.
  intros Hfuel. destruct fuel as [|[|fuel]]; [lia | lia |].
  rewrite api_unfold. cbn zeta. unfold send.
  fold (via Api (prepare w config)).
  destruct (settle _ _) as [response|error|msg] eqn:Hsettle; cycle 2.
  { eexists _, _, []. split; [reflexivity|]. split; [reflexivity | by left]. }
  { eexists _, _, []. split; [reflexivity|]. split; [reflexivity | by left]. }
  apply settle_rejected_config in Hsettle.
  unfold on_rejected.
  destruct (status_is_401 error && negb _) eqn:Hcond; cycle 1.
  { eexists _, _, []. split; [reflexivity|]. split; [reflexivity | by left]. }
  cbn [localStorage].
  destruct (truthy _); cycle 1.
  { eexists _, _, []. split; [reflexivity|]. split; [reflexivity | by left]. }
  unfold send. cbn [wire].
  match goal with
  | |- context [ refresh_request ?t ] => set (rt := t)
  end.
  fold (via Axios (refresh_request rt)).
  assert (Hcaught : ∀ (refreshError : Settled value) (w0 : World value),
            wire w0 = (wire w ++ [via Api (prepare w config)])
                      ++ [via Axios (refresh_request rt)] →
            ∃ (settled : Settled value) w' (sent : list Sent),
              Some (refreshError, w0) = Some (settled, w')
              ∧ wire w' = wire w ++ via Api (prepare w config) :: sent
              ∧ (sent = []
                 ∨ (∃ rt, sent = [via Axios (refresh_request rt)])
                 ∨ (∃ rt second,
                      sent = [via Axios (refresh_request rt); via Api second]
                      ∧ url second = url config))).
  { intros refreshError w0 Hwire.
    eexists _, _, [via Axios (refresh_request rt)].
    split; [reflexivity|]. split.
    - rewrite Hwire, <- app_assoc. reflexivity.
    - right; left. by exists rt. }
  destruct (settle (refresh_request rt) _) as [response|refreshError|msg].
  - destruct (data response) as [d|]; [|by apply Hcaught].
    rewrite api_marked by reflexivity.
    eexists _, _, [via Axios (refresh_request rt); _].
    split; [reflexivity|]. split.
    + unfold send. cbn [wire set_api_defaults set_localStorage snd].
      rewrite <- !app_assoc. reflexivity.
    + right; right. exists rt. eexists. split; [reflexivity|].
      rewrite prepare_url. cbn. rewrite Hsettle. apply prepare_url.
  - destruct (refresh_failure_toast refreshError); by apply Hcaught.
  - by apply Hcaught.
Qed.

Lemma null_read_nonempty (property : string) : null_read property ≠ "".
Proof. intros Hempty. vm_compute in Hempty. discriminate. Qed.

(** An [Error] that is no [AxiosError] has a message. *)
Lemma api_raised_nonempty (fuel : nat) :
  ∀ config w (msg : string) w',
  api fuel config w = Some (Raised msg, w') → msg ≠ "".
Proof.
  induction fuel as [|fuel IH]; intros config w msg w'; [discriminate|].
  rewrite api_unfold. cbn zeta. unfold send.
  destruct (settle _ _) as [response|error|m] eqn:Hsettle;
    [discriminate| |by apply settle_not_raised in Hsettle].
  unfold on_rejected.
  destruct (status_is_401 error && negb _); [|discriminate].
  destruct (truthy _); [|discriminate].
  unfold send.
  destruct (settle (refresh_request _) _) as [response|refreshError|m]
    eqn:Hrefresh; [| |by apply settle_not_raised in Hrefresh].
  - destruct (data response) as [d|]; [by apply IH|].
    intros [= <- _]. apply null_read_nonempty.
  - destruct (refresh_failure_toast refreshError); [discriminate|].
    intros [= <- _]. apply null_read_nonempty.
Qed.

(** With no refresh token stored, one unit of fuel is enough and the
    request is all that goes on the wire. *)
Lemma api_without_refresh_token (fuel : nat) config w :
  (1 ≤ fuel)%nat →
  truthy (getItem "refresh_token" (localStorage w)) = false →
  ∃ (settled : Settled value) w',
    api fuel config w = Some (settled, w')
    ∧ wire w' = wire w ++ [via Api (prepare w config)].
Proof.
  intros Hfuel Hnone. destruct fuel as [|fuel]; [lia|].
  rewrite api_unfold. cbn zeta. unfold send.
  fold (via Api (prepare w config)).
  destruct (settle _ _) as [response|error|msg];
    [by eexists _, _| |by eexists _, _].
  unfold on_rejected.
  destruct (status_is_401 error && negb _); [|by eexists _, _].
  cbn [localStorage]. rewrite Hnone. by eexists _, _.
Qed.

(** C1 (as amended).  Two units of fuel let every request complete, and
    what a request puts on the wire is itself, then at most one refresh
    exchange, then at most one retry: one refresh-and-retry cycle at most.
    A request whose reply is a 401 while no refresh token is stored makes no
    refresh exchange.  A request whose reply is a 401 while a refresh token
    is stored makes exactly one.  When that exchange is answered 2xx with a
    body that is not [null], the request is sent exactly once more, marked
    and with the new token as its bearer credential, the new token is
    stored, and whatever the backend replies to that retry, a second 401
    included, settles the request: nothing more goes on the wire.  When the
    exchange is answered 2xx with the body [null], or fails, there is no
    retry. *)
Theorem refresh_and_retry_once (fuel : nat) (method url : string)
    (body : RequestBody) (params : list (string * string)) (hdrs : Headers)
    w :
  let config := new_request method url body params hdrs in
  let first := via Api (prepare w config) in
  (2 ≤ fuel)%nat →
  (∃ (settled : Settled value) w' (sent : list Sent),
     api fuel config w = Some (settled, w')
     ∧ wire w' = wire w ++ first :: sent
     ∧ (sent = []
        ∨ (∃ rt, sent = [via Axios (refresh_request rt)])
        ∨ (∃ rt second,
             sent = [via Axios (refresh_request rt); via Api second]
             ∧ api.url second = url)))
  ∧ ∀ r,
      first_reply w config = Responded r →
      status r = 401 →
      (truthy (getItem "refresh_token" (localStorage w)) = false →
       ∃ (settled : Settled value) w',
         api fuel config w = Some (settled, w')
         ∧ wire w' = wire w ++ [first])
      ∧ ∀ rt : string,
          let refresh := via Axios (refresh_request rt) in
          getItem "refresh_token" (localStorage w) = Some rt → rt ≠ "" →
          (∀ response data,
             settle (refresh_request rt) (refresh_reply w config rt)
             = Resolved response →
             api.data response = Some data →
             let new := ToString (access_token data) in
             ∃ second w',
               api fuel config w
               = Some (settle second
                         (backend (wire w ++ [first; refresh])
                            (via Api second)),
                       w')
               ∧ wire w' = wire w ++ [first; refresh; via Api second]
               ∧ api.url second = url ∧ api.method second = method
               ∧ api.body second = body ∧ api.params second = params
               ∧ _retry second = true
               ∧ headers second !! "Authorization" = Some ("Bearer " +:+ new)
               ∧ getItem "token" (localStorage w') = Some new)
          ∧ (∀ response,
               settle (refresh_request rt) (refresh_reply w config rt)
               = Resolved response →
               api.data response = None →
               ∃ w',
                 api fuel config w
                 = Some (Raised (null_read "access_token"), w')
                 ∧ wire w' = wire w ++ [first; refresh])
          ∧ (∀ refreshError,
               settle (refresh_request rt) (refresh_reply w config rt)
               = Rejected refreshError →
               ∃ (settled : Settled value) w',
                 api fuel config w = Some (settled, w')
                 ∧ (settled = Rejected refreshError
                    ∨ settled = Raised (null_read "error"))
                 ∧ wire w' = wire w ++ [first; refresh]).
Proof.
  intros config first Hfuel. split; [by apply api_terminates|].
  intros r Hreply H401. split.
  { intros Hnone.
    destruct (api_401_no_refresh_token fuel method url body params hdrs w r
                ltac:(lia) Hreply H401 Hnone) as (w' & Hapi & Hwire & _).
    by eexists _, w'. }
  intros rt refresh Hrt Hne. split; [|split].
  - intros response data Hrefresh Hdata new.
    destruct fuel as [|[|fuel]]; [lia | lia |]. subst config.
    rewrite (api_401_refresh (S fuel) method url body params hdrs w r rt)
      by assumption.
    cbn zeta. rewrite Hrefresh, Hdata. fold new.
    rewrite api_marked by reflexivity.
    eexists _, _. split.
    { unfold send. cbn [wire set_api_defaults set_localStorage].
      reflexivity. }
    split.
    { unfold send. cbn [wire set_api_defaults set_localStorage snd].
      rewrite <- !app_assoc. reflexivity. }
    rewrite prepare_url, prepare_method, prepare_body, prepare_params,
      prepare_retry. cbn.
    rewrite prepare_url, prepare_method, prepare_body, prepare_params.
    repeat (split; [reflexivity|]).
    split; [|apply lookup_insert_eq].
    apply prepare_authorization; [apply lookup_insert_eq|].
    apply lookup_insert_eq.
  - intros response Hrefresh Hnull.
    destruct (api_401_refresh_null fuel method url body params hdrs
                w r rt response) as (w' & Hw' & Hwire & _);
      try assumption; [lia|].
    exists w'. split; assumption.
  - intros refreshError Hrefresh.
    destruct (refresh_failure_toast refreshError) as [shown|] eqn:Hshown.
    + destruct (api_401_refresh_rejected fuel method url body params hdrs
                  w r rt refreshError shown) as (w' & Hw' & Hwire & _);
        try assumption; [lia|].
      eexists _, w'. split; [exact Hw'|]. split; [by left | exact Hwire].
    + destruct (api_401_refresh_raised fuel method url body params hdrs
                  w r rt refreshError) as (w' & Hw' & Hwire & _);
        try assumption; [lia|].
      eexists _, w'. split; [exact Hw'|]. split; [by right | exact Hwire].
Qed.

(** C2.  A request whose reply is a 401 while no refresh token is stored
    (the key is absent or holds the empty string): the request is rejected
    with that 401 error, the session-expired notice is raised, the session
    slice is reset and the stored token and user are removed; the one
    request is all that went on the wire, so there was no refresh exchange
    and no retry. *)
Theorem logout_without_refresh_token (fuel : nat) (method url : string)
    (body : RequestBody) (params : list (string * string)) (hdrs : Headers)
    w r :
  let config := new_request method url body params hdrs in
  (1 ≤ fuel)%nat →
  first_reply w config = Responded r →
  status r = 401 →
  truthy (getItem "refresh_token" (localStorage w)) = false →
  ∃ w',
    api fuel config w
    = Some (Rejected {| api.config := set_retry true (prepare w config);
                        response := Some r;
                        message := "Request failed with status code "
                                   +:+ pretty (status r) |}, w')
    ∧ wire w' = wire w ++ [via Api (prepare w config)]
    ∧ toasts w' = toasts w ++ [session_expired]
    ∧ auth w' = authSlice.initialState
    ∧ localStorage w' = storage.clearAuthData (localStorage w)
    ∧ api_defaults w' = api_defaults w.
Proof. apply api_401_no_refresh_token. Qed.


End api_properties.

(** ** Executions: the refresh token is never written *)

Section client_properties.
Import api client.
Context {value : Type} `{!JSON value} `{!api.Network value}.
Implicit Types (w : World value) (config : AxiosRequestConfig).

Lemma call_keeps_refresh_token fuel config fallback w result w' :
  call fuel config fallback w = Some (result, w') →
  refresh_token_of w' = refresh_token_of w.
Proof.
  unfold call. destruct (api fuel config w) as [[settled w1]|] eqn:Hapi;
    [|discriminate].
  apply api_keeps_refresh_token in Hapi. simpl.
  destruct settled; intros [= _ <-]; exact Hapi.
Qed.

Lemma refreshAccessToken_keeps_refresh_token fuel w result w' :
  refreshAccessToken fuel w = Some (result, w') →
  refresh_token_of w' = refresh_token_of w.
Proof.
  unfold refreshAccessToken. destruct (negb _).
  - by intros [= _ <-].
  - apply call_keeps_refresh_token.
Qed.

Lemma handleSubmit_keeps_refresh_token fuel type formData w result w' :
  handleSubmit fuel type formData w = Some (result, w') →
  refresh_token_of w' = refresh_token_of w.
Proof.
  unfold handleSubmit.
  destruct (match type with login_form => _ | signup_form => _ end)
    as [[res w1]|] eqn:Hcall; [|discriminate].
  assert (Hw1 : refresh_token_of w1 = refresh_token_of w).
  { destruct type; eapply call_keeps_refresh_token; exact Hcall. }
  simpl. destruct res as [[data|]|msg]; intros [= _ <-]; try exact Hw1.
  unfold refresh_token_of in *. simpl.
  by rewrite saveAuthData_other.
Qed.

Lemma useAuth_tick_keeps_refresh_token fuel w w' :
  useAuth_tick fuel w = Some w' →
  refresh_token_of w' = refresh_token_of w.
Proof.
  unfold useAuth_tick. destruct (_ && _); [|by intros [= <-]].
  destruct (refreshAccessToken fuel w) as [[res w1]|] eqn:Hcall;
    [|discriminate].
  apply refreshAccessToken_keeps_refresh_token in Hcall. simpl.
  unfold refresh_token_of in *.
  destruct res as [[data|]|msg]; intros [= <-]; simpl.
  - by rewrite getItem_setItem_ne.
  - rewrite clearAuthData_idemp. by rewrite clearAuthData_other.
  - rewrite clearAuthData_idemp. by rewrite clearAuthData_other.
Qed.

Lemma snd_fmap_Some {A B} (x : option (A * B)) (b : B) :
  snd <$> x = Some b → ∃ a, x = Some (a, b).
Proof. destruct x as [[a b']|]; [|discriminate]. intros [= <-]. eauto. Qed.

(** No operation writes or removes the key. *)
Lemma run_op_keeps_refresh_token (op : client.ClientOp value) w w' :
  client.run_op op w = Some w' →
  refresh_token_of w' = refresh_token_of w.
Proof.
  unfold refresh_token_of.
  destruct op; simpl;
    try (intros (res & Hcall)%snd_fmap_Some;
         first [ eapply call_keeps_refresh_token; exact Hcall
               | eapply refreshAccessToken_keeps_refresh_token; exact Hcall
               | eapply handleSubmit_keeps_refresh_token; exact Hcall ]).
  - intros [= <-]. simpl. by apply saveAuthData_other.
  - intros [= <-]. simpl. by apply clearAuthData_other.
  - intros [= <-]. simpl.
    destruct (getStoredAuth_storage (localStorage w)) as [-> | ->];
      [reflexivity | by apply clearAuthData_other].
  - intros (res & Hcall)%snd_fmap_Some.
    unfold removeFromWishlist in Hcall. destruct (negb _).
    + by injection Hcall as _ <-.
    + eapply call_keeps_refresh_token; exact Hcall.
  - intros [= <-]. simpl. by apply clearAuthData_other.
  - apply useAuth_tick_keeps_refresh_token.
  - intros [= <-]. simpl. apply getItem_setItem_ne. by destruct slice.
Qed.

Lemma call_without_refresh_token fuel config fallback w :
  (1 ≤ fuel)%nat → url config ≠ "/refresh" →
  refresh_token_of w = None →
  ∃ result w',
    call fuel config fallback w = Some (result, w')
    ∧ wire w' = wire w ++ [via Api (prepare w config)]
    ∧ ordinary (via Api (prepare w config)).
Proof.
  intros Hfuel Hurl Hnone. unfold call.
  destruct (api_without_refresh_token fuel config w Hfuel)
    as (settled & w' & -> & Hwire).
  { unfold refresh_token_of in Hnone. by rewrite Hnone. }
  simpl. destruct settled; eexists _, _;
    (split; [reflexivity|]; split; [exact Hwire|]);
    (split; [reflexivity | simpl; by rewrite prepare_url]).
Qed.

(** With no refresh token stored, every operation completes and sends at
    most one request, an ordinary one. *)
Lemma run_op_without_refresh_token (op : client.ClientOp value) w :
  refresh_token_of w = None →
  ∃ w' sent,
    client.run_op op w = Some w'
    ∧ wire w' = wire w ++ sent
    ∧ Forall ordinary sent.
Proof.
  intros Hnone.
  assert (Hfuel : (1 ≤ client.fuel)%nat) by (unfold client.fuel; lia).
  assert (Hcall : ∀ config fallback, url config ≠ "/refresh" →
            ∃ w' sent,
              snd <$> call client.fuel config fallback w = Some w'
              ∧ wire w' = wire w ++ sent ∧ Forall ordinary sent).
  { intros config fallback Hurl.
    destruct (call_without_refresh_token client.fuel config fallback w
                Hfuel Hurl Hnone) as (result & w' & -> & Hwire & Hord).
    exists w', [via Api (prepare w config)]. simpl.
    split; [reflexivity|]. split; [exact Hwire|].
    by apply Forall_singleton. }
  assert (Hsilent : ∀ w', wire w' = wire w →
            ∃ w'' sent, Some w' = Some w''
              ∧ wire w'' = wire w ++ sent ∧ Forall ordinary sent).
  { intros w' Hw'. exists w', []. rewrite app_nil_r.
    split; [reflexivity|]. split; [exact Hw' | apply Forall_nil_2]. }
  destruct op; simpl; try (by apply Hsilent); try (by apply Hcall).
  - unfold refreshAccessToken. fold (refresh_token_of w). rewrite Hnone.
    simpl. by apply Hsilent.
  - unfold removeFromWishlist. destruct (negb _); simpl;
      [by apply Hsilent | by apply Hcall].
  - unfold handleSubmit.
    assert (Hlogin : ∃ result w1 sent,
              match type with
              | login_form => login client.fuel (email formData)
                                (password formData) w
              | signup_form => signup client.fuel (username formData)
                                 (email formData) (password formData) w
              end = Some (result, w1)
              ∧ wire w1 = wire w ++ sent ∧ Forall ordinary sent).
    { destruct type;
        (edestruct call_without_refresh_token
           as (result & w1 & Heq & Hwire & Hord);
         [exact Hfuel | | exact Hnone
         | eexists _, _, _; split; [exact Heq|]; split;
           [exact Hwire | by apply Forall_singleton]]); done. }
    destruct Hlogin as (result & w1 & sent & -> & Hwire & Hord). simpl.
    destruct result as [[data|]|msg]; simpl; eexists _, sent;
      (split; [reflexivity|]; split; [exact Hwire | exact Hord]).
  - unfold useAuth_tick. destruct (_ && _); [|by apply Hsilent].
    unfold refreshAccessToken. fold (refresh_token_of w). rewrite Hnone.
    simpl. by apply Hsilent.
Qed.

Lemma run_without_refresh_token (ops : list (client.ClientOp value)) :
  ∀ w, refresh_token_of w = None →
  ∃ w' sent,
    client.run ops w = Some w'
    ∧ wire w' = wire w ++ sent
    ∧ Forall ordinary sent
    ∧ refresh_token_of w' = None.
Proof.
  induction ops as [|op ops IH]; intros w Hnone.
  - exists w, []. rewrite app_nil_r.
    split; [reflexivity|]. split; [reflexivity|].
    split; [apply Forall_nil_2 | exact Hnone].
  - destruct (run_op_without_refresh_token op w Hnone)
      as (w1 & sent1 & Hop & Hwire1 & Hord1).
    assert (Hnone1 : refresh_token_of w1 = None).
    { rewrite (run_op_keeps_refresh_token op w w1 Hop). exact Hnone. }
    destruct (IH w1 Hnone1) as (w' & sent & Hrun & Hwire & Hord & Hnone').
    exists w', (sent1 ++ sent). simpl. rewrite Hop. simpl.
    split; [exact Hrun|]. split.
    + rewrite Hwire, Hwire1. by rewrite app_assoc.
    + split; [by apply Forall_app | exact Hnone'].
Qed.

(** C4.  No operation of the client changes what is stored under
    ["refresh_token"].  So in an execution that starts without a refresh
    token, every operation completes, none sends anything but ordinary
    requests (no refresh exchange, no request to the refresh route), the
    refresh token is still absent at the end, and a request that is then
    answered with a 401 takes the logout branch: it is the only thing sent,
    the session-expired notice is raised, the session slice is reset and the
    stored token and user are removed. *)
Theorem refresh_token_never_written (ops : list (client.ClientOp value)) w :
  refresh_token_of w = None →
  (∀ op w1 w2, client.run_op op w1 = Some w2 →
               refresh_token_of w2 = refresh_token_of w1)
  ∧ ∃ w' sent,
      client.run ops w = Some w'
      ∧ wire w' = wire w ++ sent
      ∧ Forall ordinary sent
      ∧ refresh_token_of w' = None
      ∧ ∀ method url body params hdrs r,
          let config := new_request method url body params hdrs in
          first_reply w' config = Responded r → status r = 401 →
          ∃ error w'',
            api client.fuel config w' = Some (Rejected error, w'')
            ∧ response error = Some r
            ∧ wire w'' = wire w' ++ [via Api (prepare w' config)]
            ∧ toasts w'' = toasts w' ++ [session_expired]
            ∧ auth w'' = authSlice.initialState
            ∧ localStorage w'' = storage.clearAuthData (localStorage w').
Proof.
  intros Hnone. split; [apply run_op_keeps_refresh_token|].
  destruct (run_without_refresh_token ops w Hnone)
    as (w' & sent & Hrun & Hwire & Hord & Hnone').
  exists w', sent. repeat (split; [assumption|]).
  intros method url body params hdrs r config Hreply H401.
  destruct (api_401_no_refresh_token client.fuel method url body params hdrs
              w' r) as (w'' & Hapi & Hw & Ht & Ha & Hl & _);
    try assumption.
  { unfold client.fuel. lia. }
  { unfold refresh_token_of in Hnone'. by rewrite Hnone'. }
  eexists _, w''. split; [exact Hapi|]. simpl. by repeat split.
Qed.

End client_properties.

(** ** The request interceptor and the refresh exchange *)

Section interceptor_properties.
Import api.

(** C6 (as amended).  When a non-empty access token is stored, the request
    interceptor sets the Authorization header of the request to
    [Bearer <token>] and changes nothing else; when no access token is
    stored, or the stored one is the empty string, it returns the request as
    it is and so attaches no header. *)
Theorem bearer_header_from_stored_token (ls : Storage)
    (config : AxiosRequestConfig) :
  (∀ tok, getItem "token" ls = Some tok → tok ≠ "" →
     request_interceptor ls config
     = set_header "Authorization" ("Bearer " +:+ tok) config
     ∧ headers (request_interceptor ls config) !! "Authorization"
       = Some ("Bearer " +:+ tok))
  ∧ (truthy (getItem "token" ls) = false →
     request_interceptor ls config = config).
Proof.
  unfold request_interceptor. split.
  - intros tok Htok Hne. rewrite Htok, (truthy_Some _ Hne).
    split; [reflexivity | apply lookup_insert_eq].
  - by intros ->.
Qed.

Lemma refresh_request_shape {value : Type} `{!Network value} (rt : string) :
  url (refresh_request rt) = API_URL +:+ "/refresh"
  ∧ method (refresh_request rt) = "post"
  ∧ body (refresh_request rt) = Fields []
  ∧ headers (refresh_request rt) !! "Authorization" = Some ("Bearer " +:+ rt).
Proof. repeat split. Qed.

(** C7, where the code departs from the claim.  [refreshAccessToken] posts
    through the instance [api], so the request interceptor replaces the
    Authorization header it was given: with an access token stored, what
    reaches the refresh route is the access token, not the refresh token. *)
Theorem refreshAccessToken_sends_access_token {value : Type}
    `{!Network value} (fuel : nat) (w : World value) (acc rt : string) :
  (2 ≤ fuel)%nat →
  getItem "token" (localStorage w) = Some acc → acc ≠ "" →
  getItem "refresh_token" (localStorage w) = Some rt → rt ≠ "" →
  ∃ result w' first sent,
    refreshAccessToken fuel w = Some (result, w')
    ∧ wire w' = wire w ++ via Api first :: sent
    ∧ url first = "/refresh" ∧ body first = Fields []
    ∧ headers first !! "Authorization" = Some ("Bearer " +:+ acc)
    ∧ (acc ≠ rt →
       headers first !! "Authorization" ≠ Some ("Bearer " +:+ rt)).
Proof.
  intros Hfuel Hacc Hne Hrt Hne'.
  unfold refreshAccessToken. rewrite Hrt, (truthy_Some _ Hne'). simpl.
  unfold call.
  match goal with
  | |- context [ api fuel ?c w ] => set (config := c)
  end.
  destruct (api_terminates fuel config w Hfuel)
    as (settled & w' & sent & -> & Hwire & _).
  assert (Hheader : headers (prepare w config) !! "Authorization"
                    = Some ("Bearer " +:+ acc)).
  { unfold prepare, request_interceptor.
    rewrite Hacc, (truthy_Some _ Hne). apply lookup_insert_eq. }
  simpl. destruct settled; eexists _, w', (prepare w config), sent;
    (split; [reflexivity|]); (split; [exact Hwire|]);
    rewrite prepare_url, prepare_body, Hheader;
    repeat (split; [reflexivity|]);
    intros Hdiff [= Heq]; by apply Hdiff.
Qed.

End interceptor_properties.

(** ** The round trip of the credential store *)

Section roundtrip.
Import Json.

(** C9 (as amended).  For every token that is not the empty string and
    every serializable user, [saveAuthData] followed by [getStoredAuth]
    returns that token and that user, and leaves the saved record in
    place. *)
Theorem save_then_load (token : string) (user : json) (ls : Storage) :
  token ≠ "" → serializable user = true →
  storage.getStoredAuth (storage.saveAuthData (Some token) (Some user) ls)
  = (Some {| storage.stored_token := token; storage.stored_user := user |},
     storage.saveAuthData (Some token) (Some user) ls).
Proof.
  intros Hne Hser.
  rewrite (getStoredAuth_present _ token (stringify user)).
  - simpl. by rewrite parse_stringify.
  - exact (saveAuthData_token (Some token) (Some user) ls).
  - exact Hne.
  - exact (saveAuthData_user (Some token) (Some user) ls).
  - by apply stringify_nonempty.
Qed.

End roundtrip.

(** ** Concrete runs *)

Lemma save_then_load_witness :
  storage.getStoredAuth
    (storage.saveAuthData (Some "abc") (Some demo_user) ∅)
  = (Some {| storage.stored_token := "abc";
             storage.stored_user := demo_user |},
     storage.saveAuthData (Some "abc") (Some demo_user) ∅).
Proof.
  apply (save_then_load "abc" demo_user ∅); [discriminate | reflexivity].
Defined.

(** C9, the claim as stated fails for the empty token: it is saved, and
    [getStoredAuth] then returns nothing. *)
Lemma save_then_load_empty_token :
  (storage.getStoredAuth
     (storage.saveAuthData (Some "") (Some demo_user) ∅)).1 = None.
Proof. reflexivity. Qed.

Lemma getStoredAuth_spec_witness :
  let saved : Storage :=
    {[ "token" := "abc"; "auth_user" := "{}" ]} in
  let broken : Storage := {[ "token" := "abc"; "auth_user" := "{oops" ]} in
  storage.getStoredAuth saved
  = (Some {| storage.stored_token := "abc";
             storage.stored_user := Json.JObject [] |}, saved)
  ∧ storage.getStoredAuth (value := Json.json) broken
    = (None, storage.clearAuthData broken)
  ∧ storage.getStoredAuth (value := Json.json) ∅ = (None, ∅).
Proof.
  split; [|split].
  - apply (proj1 (getStoredAuth_spec _) "abc" "{}" (Json.JObject []));
      (reflexivity || discriminate).
  - apply (proj1 (proj2 (getStoredAuth_spec (value := Json.json) _))
             "abc" "{oops"); (reflexivity || discriminate).
  - apply (proj2 (proj2 (getStoredAuth_spec (value := Json.json) ∅))).
    left. reflexivity.
Defined.

(** C6, the claim as stated fails for a stored empty token: the key is
    there, and the request leaves without any Authorization header. *)
Lemma no_bearer_for_empty_token :
  let ls : Storage := {[ "token" := "" ]} in
  let config := api.new_request "get" "/wishlist-protected" api.NoBody [] ∅ in
  getItem "token" ls = Some ""
  ∧ api.headers (api.request_interceptor ls config) !! "Authorization" = None.
Proof. split; reflexivity. Qed.

Lemma bearer_header_from_stored_token_witness :
  let ls : Storage := {[ "token" := "abc" ]} in
  let config := api.new_request "get" "/wishlist-protected" api.NoBody [] ∅ in
  api.headers (api.request_interceptor ls config) !! "Authorization"
  = Some "Bearer abc"
  ∧ api.request_interceptor ∅ config = config.
Proof.
  split.
  - apply (proj1 (bearer_header_from_stored_token _ _) "abc");
      [reflexivity | discriminate].
  - apply (proj2 (bearer_header_from_stored_token ∅ _)). reflexivity.
Defined.

Section demo.
Import api client.

(** The refresh succeeds with the token ["new"] and the retry is answered
    with a 401 again: three requests in all, and the second 401 is what the
    caller gets. *)
Lemma refresh_and_retry_once_witness :
  let net := demo_network (replied 200 (token_data "new"))
                          (replied 401 no_data) in
  let w := demo_world {[ "token" := "abc"; "refresh_token" := "xyz" ]} in
  ∃ second w',
    api (H := net) 2 demo_request w
    = Some (settle second (replied 401 no_data), w')
    ∧ length (wire w') = 3%nat
    ∧ headers second !! "Authorization" = Some "Bearer new"
    ∧ getItem "token" (localStorage w') = Some "new".
Proof.
  intros net w. unfold demo_request.
  destruct (proj1 (proj2 (proj2 (refresh_and_retry_once (H := net) 2
                                   "get" "/wishlist-protected" NoBody [] ∅ w
                                   ltac:(lia))
                            {| status := 401; data := Some no_data |}
                            eq_refl eq_refl)
                     "xyz" eq_refl ltac:(discriminate))
              {| status := 200; data := Some (token_data "new") |}
              (token_data "new") eq_refl eq_refl)
    as (second & w' & Hapi & Hwire & _ & _ & _ & _ & Hretry & Hheader & Htoken).
  exists second, w'. split.
  - rewrite Hapi. unfold backend, net, demo_network, demo_backend.
    simpl. rewrite Hretry. reflexivity.
  - split; [by rewrite Hwire|]. split; assumption.
Defined.

(** C1, the claim as stated fails: a request is answered with a 401 while
    no refresh token is stored, and no refresh exchange is made; the request
    of the instance is all that goes on the wire. *)
Lemma no_refresh_attempt_without_refresh_token :
  let net := demo_network (replied 200 (token_data "new"))
                          (replied 200 no_data) in
  let w := demo_world {[ "token" := "abc" ]} in
  first_reply (H := net) w demo_request = replied 401 no_data
  ∧ ((λ '(settled, w'), client <$> wire w')
       <$> api (H := net) 2 demo_request w)
    = Some [Api].
Proof. split; vm_compute; reflexivity. Qed.

Lemma logout_without_refresh_token_witness :
  let net := demo_network (replied 200 (token_data "new"))
                          (replied 200 no_data) in
  let w := demo_world {[ "token" := "abc"; "auth_user" := "{}" ]} in
  ∃ error w',
    api (H := net) 2 demo_request w = Some (Rejected error, w')
    ∧ length (wire w') = 1%nat
    ∧ toasts w' = [session_expired]
    ∧ auth w' = authSlice.initialState
    ∧ getItem "token" (localStorage w') = None.
Proof.
  intros net w. unfold demo_request.
  destruct (logout_without_refresh_token (H := net) 2
              "get" "/wishlist-protected" NoBody [] ∅ w
              {| status := 401; data := Some no_data |}
              ltac:(lia) eq_refl eq_refl eq_refl)
    as (w' & Hapi & Hwire & Htoasts & Hauth & Hls & _).
  eexists _, w'. split; [exact Hapi|].
  split; [by rewrite Hwire|]. split; [exact Htoasts|].
  split; [exact Hauth|]. rewrite Hls. apply clearAuthData_token.
Defined.



(** Logging in stores the access token and the user and nothing else, and
    a later 401 ends the session. *)
Lemma refresh_token_never_written_witness :
  let net := demo_network (replied 200 (token_data "new"))
                          (replied 200 no_data) in
  let form := {| username := ""; email := "a@b.com"; password := "pw" |} in
  let ops := [client.HandleSubmit login_form form; client.GetWishlist] in
  ∃ w',
    client.run (H := net) ops (demo_world ∅) = Some w'
    ∧ refresh_token_of w' = None
    ∧ Forall ordinary (wire w').
Proof.
  intros net form ops.
  assert (Hstart : refresh_token_of (demo_world ∅) = None) by reflexivity.
  destruct (proj2 (refresh_token_never_written (H := net) ops
                     (demo_world ∅) Hstart))
    as (w' & sent & Hrun & Hwire & Hord & Hnone & _).
  exists w'. split; [exact Hrun|]. split; [exact Hnone|].
  rewrite Hwire. exact Hord.
Defined.

Lemma refreshAccessToken_sends_access_token_witness :
  let net := demo_network (replied 200 (token_data "new"))
                          (replied 200 no_data) in
  let w := demo_world {[ "token" := "acc"; "refresh_token" := "ref" ]} in
  ∃ result w' first sent,
    refreshAccessToken (H := net) 2 w = Some (result, w')
    ∧ wire w' = via Api first :: sent
    ∧ url first = "/refresh"
    ∧ headers first !! "Authorization" = Some "Bearer acc".
Proof.
  intros net w.
  destruct (refreshAccessToken_sends_access_token (Network0 := net) 2 w "acc" "ref"
              ltac:(lia) eq_refl ltac:(discriminate) eq_refl
              ltac:(discriminate))
    as (result & w' & first & sent & Hcall & Hwire & Hurl & _ & Hheader & _).
  exists result, w', first, sent. by repeat split.
Defined.

(** *** The end-to-end scenarios of the specification *)

(** A login stores the access token and the user, and the session is
    authenticated; the refresh token of the response is not stored. *)
Example scenario_login :
  let net := demo_network (replied 200 (token_data "new"))
                          (replied 200 no_data) in
  let form := {| username := ""; email := "a@b.com"; password := "pw" |} in
  let w := set_auth (λ _, authSlice.initialState) (demo_world ∅) in
  ((λ w', (authSlice.isAuthenticated (auth w'), authSlice.user (auth w'),
           getItem "token" (localStorage w'), refresh_token_of w'))
     <$> client.run (H := net) [client.HandleSubmit login_form form] w)
  = Some (true, Some demo_user, Some "abc", None).
Proof. vm_compute. reflexivity. Qed.

(** A 401, a refresh that succeeds with ["new"], and the request is sent
    again with [Bearer new]; its response is what the caller gets.  The
    credentials of the three requests, in order: the access token, the
    refresh token, the new access token. *)
Example scenario_refresh_and_resend :
  let net := demo_network (replied 200 (token_data "new"))
                          (replied 200 no_data) in
  let w := demo_world {[ "token" := "abc"; "refresh_token" := "xyz" ]} in
  ((λ '(settled, w'),
      (settled,
       (λ e, headers (request e) !! "Authorization") <$> wire w'))
     <$> api (H := net) 2 demo_request w)
  = Some (Resolved {| status := 200; data := Some no_data |},
          [Some "Bearer abc"; Some "Bearer xyz"; Some "Bearer new"]).
Proof. vm_compute. reflexivity. Qed.

(** The same with a refresh that is refused: the session is reset and the
    credential store has no record to load. *)
Example scenario_refresh_refused :
  let net := demo_network (replied 403 no_data) (replied 200 no_data) in
  let w :=
    demo_world {[ "token" := "abc"; "auth_user" := "{}";
                  "refresh_token" := "xyz" ]} in
  ((λ '(settled, w'),
      (auth w', (storage.getStoredAuth (localStorage w')).1, length (wire w')))
     <$> api (H := net) 2 demo_request w)
  = Some (authSlice.initialState, None, 2%nat).
Proof. vm_compute. reflexivity. Qed.

End demo.

(** * Further properties of the code *)

(** ** utils/storage.ts *)

Section storage_further.
Context {value : Type} `{!JSON value}.

(** X1.  [clearAuthData] removes the token and the user and nothing else:
    every other key, the refresh token included, keeps its value.  Clearing
    twice is clearing once, and after a clear [getStoredAuth] returns nothing
    and leaves the storage as it is. *)
Theorem clearAuthData_exact (ls : Storage) :
  (∀ key,
     getItem key (storage.clearAuthData ls)
     = if decide (key = storage.TOKEN_KEY ∨ key = storage.USER_KEY)
       then None else getItem key ls)
  ∧ getItem "refresh_token" (storage.clearAuthData ls)
    = getItem "refresh_token" ls
  ∧ storage.clearAuthData (storage.clearAuthData ls) = storage.clearAuthData ls
  ∧ storage.getStoredAuth (value := value) (storage.clearAuthData ls)
    = (None, storage.clearAuthData ls).
Proof.
  split; [|split; [|split]].
  - intros key. destruct (decide _) as [[-> | ->] | Hother].
    + apply clearAuthData_token.
    + apply clearAuthData_user.
    + apply clearAuthData_other; intros ->; apply Hother; auto.
  - by apply clearAuthData_other.
  - apply clearAuthData_idemp.
  - apply getStoredAuth_absent. left. by rewrite clearAuthData_token.
Qed.

(** X2.  [getStoredAuth] settles the storage: what it leaves behind differs
    from what it found in the token and the user at most, and loading again
    returns the same answer and changes nothing more.  A record it returns
    has a non-empty token, the one stored, and was returned without touching
    the storage. *)
Theorem getStoredAuth_settles (ls : Storage) :
  let result := (storage.getStoredAuth (value := value) ls).1 in
  let ls' := (storage.getStoredAuth (value := value) ls).2 in
  storage.getStoredAuth ls' = (result, ls')
  ∧ (∀ key, key ≠ storage.TOKEN_KEY → key ≠ storage.USER_KEY →
       getItem key ls' = getItem key ls)
  ∧ (∀ record, result = Some record →
       ls' = ls
       ∧ storage.stored_token record ≠ ""
       ∧ getItem storage.TOKEN_KEY ls = Some (storage.stored_token record)).
Proof.
  unfold storage.getStoredAuth.
  destruct (getItem storage.TOKEN_KEY ls) as [t|] eqn:Ht; simpl;
    [|repeat split; try done; by rewrite Ht].
  destruct (nonempty t) eqn:Hne; simpl;
    [|repeat split; try done; by rewrite Ht; simpl; rewrite Hne].
  destruct (getItem storage.USER_KEY ls) as [u|] eqn:Hu; simpl;
    [|repeat split; try done; by rewrite Ht, Hu; simpl; rewrite Hne].
  destruct (nonempty u) eqn:Hne'; simpl;
    [|repeat split; try done; by rewrite Ht, Hu; simpl; rewrite Hne, Hne'].
  destruct (JSON_parse u) as [v|] eqn:Hparse; simpl.
  - split; [by rewrite Ht, Hu; simpl; rewrite Hne, Hne', Hparse|].
    split; [done|]. intros record [= <-]. simpl.
    split; [done|]. split; [by apply nonempty_true | done].
  - split; [by rewrite clearAuthData_token|].
    split; [|done]. intros key Hk Hk'. by apply clearAuthData_other.
Qed.

(** X3.  [saveAuthData] writes the token and the user and nothing else, and
    what it writes replaces what was saved before: of two saves in a row
    only the second shows. *)
Theorem saveAuthData_overwrites (t1 t2 : option string)
    (u1 u2 : option value) (ls : Storage) :
  storage.saveAuthData t2 u2 (storage.saveAuthData t1 u1 ls)
  = storage.saveAuthData t2 u2 ls
  ∧ (∀ key, key ≠ storage.TOKEN_KEY → key ≠ storage.USER_KEY →
       getItem key (storage.saveAuthData t2 u2 ls) = getItem key ls).
Proof.
  split; [|intros key Hk Hk'; by apply saveAuthData_other].
  apply map_eq. intros key.
  fold (getItem key (storage.saveAuthData t2 u2 ls)).
  fold (getItem key
          (storage.saveAuthData t2 u2 (storage.saveAuthData t1 u1 ls))).
  destruct (decide (key = storage.TOKEN_KEY)) as [->|Ht].
  - by rewrite !saveAuthData_token.
  - destruct (decide (key = storage.USER_KEY)) as [->|Hu].
    + by rewrite !saveAuthData_user.
    + by rewrite !saveAuthData_other.
Qed.

End storage_further.

(** ** store/wishlistSlice.ts *)

Section wishlistSlice_further.
Import wishlistSlice.

Lemma filter_id_absent (l : list Product) (x : string) :
  x ∉ id <$> l →
  List.filter (λ item, negb (String.eqb (id item) x)) l = l.
Proof.
  induction l as [|p l IH]; [done|]. simpl.
  rewrite ?fmap_cons, not_elem_of_cons. intros [Hne Hnotin].
  destruct (String.eqb_spec (id p) x) as [Heq|_]; [congruence|].
  simpl. by rewrite IH.
Qed.

Lemma filter_id_removed (l : list Product) (x : string) :
  x ∉ id <$> List.filter (λ item, negb (String.eqb (id item) x)) l.
Proof.
  induction l as [|p l IH]; simpl; [apply not_elem_of_nil|].
  destruct (String.eqb_spec (id p) x) as [Heq|Hne]; simpl; [done|].
  rewrite ?fmap_cons, not_elem_of_cons. split; [congruence | done].
Qed.

(** X4.  [removeFromWishlist] removes every entry with the given id and
    keeps the others: an entry is in the mirror afterwards exactly when it
    was before and has another id; the id is no longer in the mirror; the
    mirror does not grow; and removing an id that is not there changes
    nothing. *)
Theorem removeFromWishlist_exact (state : WishlistState) (productId : string) :
  let state' := removeFromWishlist productId state in
  (productId ∉ ids state')
  ∧ (∀ p, p ∈ items state' ↔ p ∈ items state ∧ id p ≠ productId)
  ∧ (length (items state') ≤ length (items state))%nat
  ∧ (productId ∉ ids state → state' = state).
Proof.
  simpl. split; [apply filter_id_removed|]. split; [|split].
  - intros p. unfold removeFromWishlist. simpl.
    rewrite !list_elem_of_In, List.filter_In.
    destruct (String.eqb_spec (id p) productId); simpl; split;
      intros [Hin Hp]; split; congruence.
  - apply List.filter_length_le.
  - intros Habsent. unfold removeFromWishlist.
    rewrite filter_id_absent by exact Habsent. by destruct state.
Qed.

Lemma filter_id_app (l : list Product) (p : Product) :
  id p ∉ id <$> l →
  List.filter (λ item, negb (String.eqb (id item) (id p))) (l ++ [p]) = l.
Proof.
  intros Habsent. rewrite List.filter_app, filter_id_absent by exact Habsent.
  simpl. rewrite String.eqb_refl. simpl. apply app_nil_r.
Qed.

(** X5.  A product whose id is not in the mirror is added at its end, after
    the entries that were there, and removing its id again gives back the
    mirror as it was. *)
Theorem add_then_remove (state : WishlistState) (product : Product) :
  id product ∉ ids state →
  items (addToWishlist product state) = items state ++ [product]
  ∧ removeFromWishlist (id product) (addToWishlist product state) = state.
Proof.
  intros Habsent.
  assert (Hadd : addToWishlist product state
                 = {| items := items state ++ [product] |}).
  { unfold addToWishlist. destruct (List.find _ _) eqn:Hfind; [|done].
    apply find_id_Some in Hfind. by destruct Habsent. }
  rewrite Hadd. split; [done|].
  unfold removeFromWishlist. simpl.
  rewrite filter_id_app by exact Habsent. by destruct state.
Qed.

End wishlistSlice_further.

(** ** utils/api.ts *)

Section api_further.
Import api client.
Context {value : Type} `{!api.Network value}.
Implicit Types (w : World value) (config : AxiosRequestConfig).
Implicit Types (r : AxiosResponse value) (error : AxiosError value).

Lemma api_pass_through (fuel : nat) config w :
  (1 ≤ fuel)%nat →
  (∀ r, first_reply w config = Responded r → status r ≠ 401) →
  ∃ w',
    api fuel config w
    = Some (settle (prepare w config) (first_reply w config), w')
    ∧ wire w' = wire w ++ [via Api (prepare w config)]
    ∧ localStorage w' = localStorage w
    ∧ auth w' = auth w
    ∧ toasts w' = toasts w
    ∧ api_defaults w' = api_defaults w.
Proof.
  intros Hfuel Hnot401. destruct fuel as [|fuel]; [lia|].
  rewrite api_unfold. cbn zeta. unfold send.
  fold (via Api (prepare w config)). fold (first_reply w config).
  destruct (settle _ _) as [response|error|m] eqn:Hsettle;
    [by eexists| |by eexists].
  unfold on_rejected.
  assert (H401 : status_is_401 error = false).
  { unfold settle in Hsettle.
    destruct (first_reply w config) as [r|msg] eqn:Hreply.
    - destruct (_ && _); [discriminate|]. injection Hsettle as <-.
      unfold status_is_401. simpl. apply Z.eqb_neq. by apply Hnot401.
    - by injection Hsettle as <-. }
  rewrite H401. simpl. by eexists.
Qed.

Lemma api_401_refresh_resolved (fuel : nat) (method url : string)
    (body : RequestBody) (params : list (string * string)) (hdrs : Headers)
    w r (rt : string) (response : AxiosResponse value)
    (data : ResponseData value) :
  let config := new_request method url body params hdrs in
  let first := via Api (prepare w config) in
  let refresh := via Axios (refresh_request rt) in
  let new := ToString (access_token data) in
  (2 ≤ fuel)%nat →
  first_reply w config = Responded r →
  status r = 401 →
  getItem "refresh_token" (localStorage w) = Some rt → rt ≠ "" →
  settle (refresh_request rt) (refresh_reply w config rt) = Resolved response →
  api.data response = Some data →
  ∃ second,
    api fuel config w
    = Some (settle second
              (backend (wire w ++ [first; refresh]) (via Api second)),
            {| localStorage := setItem "token" new (localStorage w);
               auth := auth w;
               api_defaults :=
                 <["Authorization" := "Bearer " +:+ new]> (api_defaults w);
               toasts := toasts w;
               wire := wire w ++ [first; refresh; via Api second] |})
    ∧ _retry second = true.
Proof.
  intros config first refresh new Hfuel Hreply H401 Hrt Hne Hrefresh Hdata.
  destruct fuel as [|[|fuel]]; [lia | lia |]. subst config.
  rewrite (api_401_refresh (S fuel) method url body params hdrs w r rt)
    by assumption.
  cbn zeta. rewrite Hrefresh, Hdata. fold new.
  rewrite api_marked by reflexivity.
  eexists. split.
  - unfold send. cbn [wire set_api_defaults set_localStorage snd localStorage
                      auth api_defaults toasts].
    rewrite <- !app_assoc. reflexivity.
  - by rewrite prepare_retry.
Qed.

(** X6.  A reply that is not a 401 goes to the caller as it is: a response
    with a 2xx status is returned, any other reply is the rejection, and in
    both cases the request is all that went on the wire and nothing else
    changed: no refresh exchange, no retry, no toast, and the storage, the
    session and the defaults are as before. *)
Theorem other_replies_pass_through (fuel : nat) config w :
  (1 ≤ fuel)%nat →
  (∀ r, first_reply w config = Responded r → status r ≠ 401) →
  ∃ w',
    api fuel config w
    = Some (settle (prepare w config) (first_reply w config), w')
    ∧ wire w' = wire w ++ [via Api (prepare w config)]
    ∧ localStorage w' = localStorage w
    ∧ auth w' = auth w
    ∧ toasts w' = toasts w
    ∧ api_defaults w' = api_defaults w.
Proof. apply api_pass_through. Qed.

(** X7.  A refresh that succeeds never ends the session, whatever the retry
    is answered with: when the retry gets a 401 again the caller gets that
    error, and the session slice and the toasts are as before; the stored
    access token is the new one.  A refresh succeeds when the exchange is
    answered 2xx with a body that is not [null]. *)
Theorem refresh_success_keeps_session (fuel : nat) (method url : string)
    (body : RequestBody) (params : list (string * string)) (hdrs : Headers)
    w r (rt : string) (response : AxiosResponse value)
    (data : ResponseData value) :
  let config := new_request method url body params hdrs in
  (2 ≤ fuel)%nat →
  first_reply w config = Responded r →
  status r = 401 →
  getItem "refresh_token" (localStorage w) = Some rt → rt ≠ "" →
  settle (refresh_request rt) (refresh_reply w config rt) = Resolved response →
  api.data response = Some data →
  ∃ settled w',
    api fuel config w = Some (settled, w')
    ∧ auth w' = auth w
    ∧ toasts w' = toasts w
    ∧ localStorage w'
      = setItem "token" (ToString (access_token data)) (localStorage w)
    ∧ length (wire w') = (length (wire w) + 3)%nat.
Proof.
  intros config Hfuel Hreply H401 Hrt Hne Hrefresh Hdata.
  destruct (api_401_refresh_resolved fuel method url body params hdrs
              w r rt response data Hfuel Hreply H401 Hrt Hne Hrefresh Hdata)
    as (second & Hapi & _).
  eexists _, _. split; [exact Hapi|]. simpl.
  repeat split. rewrite length_app. simpl. lia.
Qed.

(** X8.  The Authorization header a successful refresh leaves in the
    defaults of the instance outlives the session: after a logout, with no
    token stored any more, a request that brings no Authorization header of
    its own is still sent with [Bearer <the refreshed token>]. *)
Theorem default_header_survives_logout (fuel : nat) (method url : string)
    (body : RequestBody) (params : list (string * string)) (hdrs : Headers)
    w r (rt : string) (response : AxiosResponse value)
    (data : ResponseData value) :
  let config := new_request method url body params hdrs in
  let new := ToString (access_token data) in
  (2 ≤ fuel)%nat →
  first_reply w config = Responded r →
  status r = 401 →
  getItem "refresh_token" (localStorage w) = Some rt → rt ≠ "" →
  settle (refresh_request rt) (refresh_reply w config rt) = Resolved response →
  api.data response = Some data →
  ∃ settled w',
    api fuel config w = Some (settled, w')
    ∧ getItem "token" (localStorage (dispatch_logout w')) = None
    ∧ ∀ next,
        headers next !! "Authorization" = None →
        headers (prepare (dispatch_logout w') next) !! "Authorization"
        = Some ("Bearer " +:+ new).
Proof.
  intros config new Hfuel Hreply H401 Hrt Hne Hrefresh Hdata.
  destruct (api_401_refresh_resolved fuel method url body params hdrs
              w r rt response data Hfuel Hreply H401 Hrt Hne Hrefresh Hdata)
    as (second & Hapi & _).
  eexists _, _. split; [exact Hapi|]. simpl.
  split; [apply clearAuthData_token|].
  intros next Hnext. unfold prepare, request_interceptor. simpl.
  change (getItem "token" ?m) with (getItem storage.TOKEN_KEY m).
  rewrite clearAuthData_token. simpl.
  rewrite lookup_union_r by exact Hnext. apply lookup_insert_eq.
Qed.

Lemma or_else_nonempty (a : option string) (b : string) :
  b ≠ "" → or_else a b ≠ "".
Proof.
  intros Hb. unfold or_else. destruct a as [s|]; [|done].
  destruct (nonempty s) eqn:Hs; [by apply nonempty_true | done].
Qed.

Lemma failure_message_priority error (fallback : string) :
  let from_body := (response error ≫= data) ≫= api.error in
  (∀ e, from_body = Some e → e ≠ "" → failure_message error fallback = e)
  ∧ (truthy from_body = false → message error ≠ "" →
     failure_message error fallback = message error)
  ∧ (truthy from_body = false → message error = "" →
     failure_message error fallback = fallback)
  ∧ (fallback ≠ "" → failure_message error fallback ≠ "").
Proof.
  intros from_body.
  assert (Hunfold : failure_message error fallback
                    = or_else (Some (or_else from_body (message error)))
                        fallback) by reflexivity.
  split; [|split; [|split]]; [| | |apply or_else_nonempty];
    rewrite Hunfold; clear Hunfold; clearbody from_body; unfold or_else.
  - intros e -> He. apply nonempty_true in He. by rewrite He, He.
  - intros Hbody Hm. apply nonempty_true in Hm.
    destruct from_body as [e|]; simpl in Hbody; [rewrite Hbody|];
      by rewrite Hm.
  - intros Hbody ->.
    destruct from_body as [e|]; simpl in Hbody; [rewrite Hbody|]; done.
Qed.

Lemma call_total (fuel : nat) config (fallback : string) w :
  (2 ≤ fuel)%nat →
  ∃ result w' sent,
    call fuel config fallback w = Some (result, w')
    ∧ wire w' = wire w ++ via Api (prepare w config) :: sent
    ∧ (fallback ≠ "" → ∀ msg, result = Thrown msg → msg ≠ "").
Proof.
  intros Hfuel. unfold call.
  destruct (api_terminates fuel config w Hfuel)
    as (settled & w' & sent & Hapi & Hwire & _).
  rewrite Hapi. simpl.
  destruct settled as [response|error|raised]; eexists _, w', sent;
    (split; [reflexivity|]); (split; [exact Hwire|]).
  - intros _ msg [=].
  - intros Hfallback msg [= <-]. unfold failure_message.
    by apply or_else_nonempty.
  - intros _ msg [= <-]. by eapply api_raised_nonempty.
Qed.


(** X10.  [removeFromWishlist] validates before it sends: for the empty
    product id it throws ["Invalid productId."] and nothing goes on the
    wire; for any other id it sends a DELETE to the wishlist route with the
    id as the [itemId] parameter. *)
Theorem removeFromWishlist_validates (fuel : nat) (productId : string) w :
  (2 ≤ fuel)%nat →
  (productId = "" →
   removeFromWishlist fuel productId w = Some (Thrown "Invalid productId.", w))
  ∧ (productId ≠ "" →
     ∃ result w' first sent,
       removeFromWishlist fuel productId w = Some (result, w')
       ∧ wire w' = wire w ++ via Api first :: sent
       ∧ method first = "delete"
       ∧ url first = "/wishlist-protected"
       ∧ params first = [("itemId", productId)]).
Proof.
  intros Hfuel. split.
  - by intros ->.
  - intros Hne. unfold removeFromWishlist.
    apply nonempty_true in Hne. rewrite Hne. simpl.
    match goal with
    | |- context [ call fuel ?c ?f w ] =>
        destruct (call_total fuel c f w Hfuel)
          as (result & w' & sent & Hcall & Hwire & _);
        exists result, w', (prepare w c), sent
    end.
    split; [exact Hcall|]. split; [exact Hwire|].
    by rewrite prepare_method, prepare_url, prepare_params.
Qed.

(** X11.  The refresh interval of [useAuth] with no refresh token stored:
    for a signed-in session it ends the session without sending anything
    (the slice is reset, the stored token and user are removed, the
    session-expired notice is raised); for a session that is not signed in
    it does nothing. *)
Theorem useAuth_tick_without_refresh_token (fuel : nat) w :
  truthy (refresh_token_of w) = false →
  (authSlice.isAuthenticated (auth w) = true →
   truthy (authSlice.token (auth w)) = true →
   ∃ w',
     useAuth_tick fuel w = Some w'
     ∧ wire w' = wire w
     ∧ auth w' = authSlice.initialState
     ∧ localStorage w' = storage.clearAuthData (localStorage w)
     ∧ toasts w' = toasts w ++ [session_expired])
  ∧ (authSlice.isAuthenticated (auth w) = false
     ∨ truthy (authSlice.token (auth w)) = false →
     useAuth_tick fuel w = Some w).
Proof.
  intros Hnone. unfold useAuth_tick. split.
  - intros -> ->. simpl. unfold refreshAccessToken.
    fold (refresh_token_of w). rewrite Hnone. simpl.
    eexists. split; [reflexivity|]. simpl.
    repeat split. apply clearAuthData_idemp.
  - intros [-> | ->]; [done|]. by rewrite andb_false_r.
Qed.

End api_further.

(** ** components/AuthForm.tsx *)

Section AuthForm_further.
Import api client.
Context {value : Type} `{!JSON value} `{!api.Network value}.
Implicit Types (w : World value) (config : AxiosRequestConfig).
Implicit Types (r : AxiosResponse value).

Lemma or_else_twice (a : option string) (b c : string) :
  b ≠ "" → or_else (Some (or_else a b)) c = or_else a b.
Proof.
  intros Hb. pose proof (or_else_nonempty a b Hb) as Hne.
  apply nonempty_true in Hne. unfold or_else at 1. by rewrite Hne.
Qed.

Lemma clearAuthData_saveAuthData token (user : option value) (ls : Storage) :
  storage.clearAuthData (storage.saveAuthData token user ls)
  = storage.clearAuthData ls.
Proof.
  apply map_eq. intros key.
  change (getItem key
            (storage.clearAuthData (storage.saveAuthData token user ls))
          = getItem key (storage.clearAuthData ls)).
  destruct (decide (key = storage.TOKEN_KEY)) as [->|Ht].
  { by rewrite !clearAuthData_token. }
  destruct (decide (key = storage.USER_KEY)) as [->|Hu].
  { by rewrite !clearAuthData_user. }
  rewrite !clearAuthData_other by assumption.
  by apply saveAuthData_other.
Qed.

Lemma handleSubmit_unfold (fuel : nat) (type : FormType) (formData : Form) w :
  handleSubmit fuel type formData w
  = match call fuel (AuthForm.submit_request type formData)
            (AuthForm.submit_fallback type) w with
    | Some (Returned (Some data), w) =>
        let w :=
          set_localStorage
            (storage.saveAuthData (access_token data) (user data)) w in
        Some (None,
              dispatch_setCredentials
                {| authSlice.payload_user := user data;
                   authSlice.payload_token := access_token data |} w)
    | Some (Returned None, w) =>
        Some (Some (null_destructure "access_token" "data"), w)
    | Some (Thrown msg, w) => Some (Some msg, w)
    | None => None
    end.
Proof.
  unfold handleSubmit, login, signup.
  destruct type; cbn [AuthForm.submit_request AuthForm.submit_fallback];
    by destruct (call _ _ _ _) as [[[[?|]|?] ?]|].
Qed.

Lemma api_resolved (fuel : nat) config w r :
  (1 ≤ fuel)%nat →
  first_reply w config = Responded r →
  200 ≤ status r < 300 →
  api fuel config w
  = Some (Resolved r,
          {| localStorage := localStorage w; auth := auth w;
             api_defaults := api_defaults w; toasts := toasts w;
             wire := wire w ++ [via Api (prepare w config)] |}).
Proof.
  intros Hfuel Hreply [Hlo Hhi]. destruct fuel as [|fuel]; [lia|].
  rewrite api_unfold. cbn zeta. unfold send.
  fold (via Api (prepare w config)). fold (first_reply w config).
  rewrite Hreply. unfold settle.
  apply Z.leb_le in Hlo. apply Z.ltb_lt in Hhi. by rewrite Hlo, Hhi.
Qed.

Lemma handleSubmit_resolved (fuel : nat) (type : FormType) (formData : Form)
    w r (data : ResponseData value) :
  (1 ≤ fuel)%nat →
  first_reply w (AuthForm.submit_request type formData) = Responded r →
  200 ≤ status r < 300 →
  api.data r = Some data →
  handleSubmit fuel type formData w
  = Some (None,
          {| localStorage :=
               storage.saveAuthData (access_token data) (user data)
                 (localStorage w);
             auth :=
               {| authSlice.user := user data;
                  authSlice.token := access_token data;
                  authSlice.isAuthenticated := truthy (access_token data) |};
             api_defaults := api_defaults w; toasts := toasts w;
             wire :=
               wire w
               ++ [via Api (prepare w (AuthForm.submit_request type formData))]
          |}).
Proof.
  intros Hfuel Hreply Hstatus Hdata. rewrite handleSubmit_unfold. unfold call.
  rewrite (api_resolved _ _ _ _ Hfuel Hreply Hstatus). simpl.
  by rewrite Hdata.
Qed.

(** X12.  A form submission answered with a 2xx status and a body that is
    not [null] shows no error and signs the user in from the response body
    alone: the slice takes the body's [user] and [access_token], the store
    takes their texts under ["auth_user"] and ["token"], every other key of
    the store is left as it was, one request went out and no notice was
    raised.  When the body is [null] the form shows the [TypeError] of
    destructuring it, and the store and the session are left as they
    were. *)
Theorem submit_success_signs_in (fuel : nat) (type : FormType)
    (formData : Form) w r :
  (1 ≤ fuel)%nat →
  first_reply w (AuthForm.submit_request type formData) = Responded r →
  200 ≤ status r < 300 →
  (∀ data,
     api.data r = Some data →
     ∃ w',
       handleSubmit fuel type formData w = Some (None, w')
       ∧ authSlice.user (auth w') = user data
       ∧ authSlice.token (auth w') = access_token data
       ∧ authSlice.isAuthenticated (auth w') = truthy (access_token data)
       ∧ getItem "token" (localStorage w')
         = Some (ToString (access_token data))
       ∧ getItem "auth_user" (localStorage w')
         = Some (ToString (JSON_stringify <$> user data))
       ∧ (∀ key, key ≠ "token" → key ≠ "auth_user" →
            getItem key (localStorage w') = getItem key (localStorage w))
       ∧ wire w'
         = wire w
           ++ [via Api (prepare w (AuthForm.submit_request type formData))]
       ∧ toasts w' = toasts w)
  ∧ (api.data r = None →
     ∃ w',
       handleSubmit fuel type formData w
       = Some (Some (null_destructure "access_token" "data"), w')
       ∧ auth w' = auth w
       ∧ localStorage w' = localStorage w
       ∧ wire w'
         = wire w
           ++ [via Api (prepare w (AuthForm.submit_request type formData))]
       ∧ toasts w' = toasts w).
Proof.
  intros Hfuel Hreply Hstatus. split.
  - intros data Hdata. eexists. split.
    { by apply (handleSubmit_resolved fuel type formData w r data). }
    cbn [auth localStorage wire toasts authSlice.user authSlice.token
         authSlice.isAuthenticated].
    repeat split.
    + apply saveAuthData_token.
    + apply saveAuthData_user.
    + intros key Ht Hu. by apply saveAuthData_other.
  - intros Hnull. rewrite handleSubmit_unfold. unfold call.
    rewrite (api_resolved _ _ _ _ Hfuel Hreply Hstatus). simpl.
    rewrite Hnull. by eexists.
Qed.

(** X13.  A 2xx response whose body has no [access_token] and no [user] is
    taken as a success all the same: no error is shown, the text
    ["undefined"] is stored under both keys, the session is not signed in,
    and the next request of [api] is sent with the header
    ["Bearer undefined"]. *)
Theorem submit_without_credentials (fuel : nat) (type : FormType)
    (formData : Form) w r (data : ResponseData value) config :
  (1 ≤ fuel)%nat →
  first_reply w (AuthForm.submit_request type formData) = Responded r →
  200 ≤ status r < 300 →
  api.data r = Some data →
  access_token data = None →
  user data = None →
  ∃ w',
    handleSubmit fuel type formData w = Some (None, w')
    ∧ getItem "token" (localStorage w') = Some "undefined"
    ∧ getItem "auth_user" (localStorage w') = Some "undefined"
    ∧ authSlice.isAuthenticated (auth w') = false
    ∧ authSlice.token (auth w') = None
    ∧ headers (prepare w' config) !! "Authorization" = Some "Bearer undefined".
Proof.
  intros Hfuel Hreply Hstatus Hdata Htoken Huser. eexists. split.
  { by apply (handleSubmit_resolved fuel type formData w r data). }
  cbn [auth localStorage authSlice.token authSlice.isAuthenticated].
  rewrite Htoken, Huser.
  assert (Hstored : getItem "token"
                      (storage.saveAuthData None (None : option value)
                         (localStorage w)) = Some "undefined")
    by apply saveAuthData_token.
  repeat split.
  - exact Hstored.
  - apply (saveAuthData_user None None).
  - unfold prepare, request_interceptor. cbn [localStorage].
    rewrite Hstored. simpl. apply lookup_insert_eq.
Qed.

(** X14.  A form submission answered 401 while no refresh token is stored
    goes through the interceptor like any other request: the form shows the
    [error] of the body when that is a non-empty string and
    ["Request failed with status code 401"] otherwise, and besides that the
    session-expired notice is raised, the slice is reset and the stored
    token and user are removed. *)
Theorem submit_401_ends_session (fuel : nat) (type : FormType)
    (formData : Form) w r :
  (1 ≤ fuel)%nat →
  first_reply w (AuthForm.submit_request type formData) = Responded r →
  status r = 401 →
  truthy (refresh_token_of w) = false →
  ∃ w',
    handleSubmit fuel type formData w
    = Some (Some (or_else (data r ≫= error)
                    "Request failed with status code 401"), w')
    ∧ toasts w' = toasts w ++ [session_expired]
    ∧ auth w' = authSlice.initialState
    ∧ localStorage w' = storage.clearAuthData (localStorage w)
    ∧ wire w'
      = wire w ++ [via Api (prepare w (AuthForm.submit_request type formData))].
Proof.
  intros Hfuel Hreply H401 Hnone. rewrite handleSubmit_unfold. unfold call.
  assert (Hshape : ∃ method url body params hdrs,
            AuthForm.submit_request type formData
            = new_request method url body params hdrs)
    by (destruct type; by eexists _, _, _, _, _).
  destruct Hshape as (method & url & body & params & hdrs & Hshape).
  rewrite Hshape in *.
  destruct (api_401_no_refresh_token fuel method url body params hdrs w r
              Hfuel Hreply H401 Hnone)
    as (w' & -> & Hwire & Htoasts & Hauth & Hstore & _).
  exists w'. split; [|done].
  cbn [mbind option_bind]. do 3 f_equal.
  unfold failure_message. cbn [response message].
  change (Some r ≫= data) with (data r).
  rewrite H401.
  replace ("Request failed with status code " +:+ pretty 401)
    with "Request failed with status code 401" by (vm_compute; reflexivity).
  by apply or_else_twice.
Qed.

End AuthForm_further.

Section reload.
Import api client.
Context `{!api.Network Json.json}.

(** X15.  Signing in and loading the page again: after a submission answered
    with a 2xx status whose body carries a non-empty access token and a
    serializable user, [getStoredAuth] returns that token and that user and
    leaves the store as it is, so the session the page restores is the one
    the slice holds. *)
Theorem submit_then_getStoredAuth (fuel : nat) (type : FormType)
    (formData : Form) (w : World Json.json) (r : AxiosResponse Json.json)
    (data : ResponseData Json.json) (t : string) (u : Json.json) :
  (1 ≤ fuel)%nat →
  first_reply w (AuthForm.submit_request type formData) = Responded r →
  200 ≤ status r < 300 →
  api.data r = Some data →
  access_token data = Some t → t ≠ "" →
  user data = Some u → Json.serializable u = true →
  ∃ w',
    handleSubmit fuel type formData w = Some (None, w')
    ∧ storage.getStoredAuth (localStorage w')
      = (Some {| storage.stored_token := t; storage.stored_user := u |},
         localStorage w')
    ∧ authSlice.token (auth w') = Some t
    ∧ authSlice.user (auth w') = Some u
    ∧ authSlice.isAuthenticated (auth w') = true.
Proof.
  intros Hfuel Hreply Hstatus Hdata Htoken Hne Huser Hser. eexists. split.
  { by apply (handleSubmit_resolved fuel type formData w r data). }
  cbn [auth localStorage authSlice.user authSlice.token
       authSlice.isAuthenticated].
  rewrite Htoken, Huser. repeat split.
  - rewrite (getStoredAuth_present _ t (Json.stringify u)).
    + change (JSON_parse (Json.stringify u)) with (Json.parse (Json.stringify u)).
      by rewrite parse_stringify.
    + exact (saveAuthData_token (Some t) (Some u) (localStorage w)).
    + exact Hne.
    + exact (saveAuthData_user (Some t) (Some u) (localStorage w)).
    + by apply stringify_nonempty.
  - by apply truthy_Some.
Qed.

(** X16.  After a submission whose 2xx body has neither field, the next
    [getStoredAuth] finds the text ["undefined"] under ["auth_user"], fails
    to parse it, removes both keys and returns nothing. *)
Theorem undefined_credentials_are_purged (fuel : nat) (type : FormType)
    (formData : Form) (w : World Json.json) (r : AxiosResponse Json.json)
    (data : ResponseData Json.json) :
  (1 ≤ fuel)%nat →
  first_reply w (AuthForm.submit_request type formData) = Responded r →
  200 ≤ status r < 300 →
  api.data r = Some data →
  access_token data = None →
  user data = None →
  ∃ w',
    handleSubmit fuel type formData w = Some (None, w')
    ∧ storage.getStoredAuth (localStorage w')
      = (None, storage.clearAuthData (localStorage w))
    ∧ getItem "token" (storage.getStoredAuth (localStorage w')).2 = None
    ∧ getItem "auth_user" (storage.getStoredAuth (localStorage w')).2 = None.
Proof.
  intros Hfuel Hreply Hstatus Hdata Htoken Huser. eexists. split.
  { by apply (handleSubmit_resolved fuel type formData w r data). }
  cbn [localStorage]. rewrite Htoken, Huser.
  assert (Hload : storage.getStoredAuth
                    (storage.saveAuthData None (None : option Json.json)
                       (localStorage w))
                  = (None, storage.clearAuthData (localStorage w))).
  { rewrite (getStoredAuth_present _ "undefined" "undefined").
    - change (JSON_parse "undefined") with (Json.parse "undefined").
      replace (Json.parse "undefined") with (@None Json.json)
        by (vm_compute; reflexivity).
      f_equal. apply clearAuthData_saveAuthData.
    - apply (saveAuthData_token None).
    - discriminate.
    - apply (saveAuthData_user None None).
    - discriminate. }
  rewrite Hload. repeat split; simpl.
  - apply clearAuthData_token.
  - apply clearAuthData_user.
Qed.

End reload.

(** ** The components *)

Section ProductCard_link.
Import wishlistSlice ProductCard.

Lemma startsWith_append (p s : string) : startsWith (p +:+ s) p = true.
Proof.
  induction p as [|a p IH]; [by destruct s|].
  change (Ascii.eqb a a && startsWith (p +:+ s) p = true).
  by rewrite Ascii.eqb_refl, IH.
Qed.

(** X17.  [getSourceLink] always gives a link that starts with ["http://"] or
    ["https://"]; the link it gives for a product whose source link is
    already one of its results is that link again, so a second pass adds no
    second prefix. *)
Theorem getSourceLink_has_protocol (product : Product) :
  let link := getSourceLink product in
  startsWith link "http://" || startsWith link "https://" = true
  ∧ ∀ product', sourceLink product' = link → getSourceLink product' = link.
Proof.
  assert (Hlink : ∀ p,
            startsWith (getSourceLink p) "http://"
            || startsWith (getSourceLink p) "https://" = true).
  { intros p. unfold getSourceLink.
    destruct (startsWith (sourceLink p) "http://"
              || startsWith (sourceLink p) "https://") eqn:Hstarts.
    - exact Hstarts.
    - by rewrite (startsWith_append "https://"), orb_true_r. }
  split; [apply Hlink|].
  intros product' Hsame. unfold getSourceLink at 1.
  by rewrite Hsame, (Hlink product).
Qed.

End ProductCard_link.

Section components_further.
Import api client.
Context {value : Type} `{!api.Network value}.
Implicit Types (w : World value) (a : app.App value).
Implicit Types (product : wishlistSlice.Product).

Lemma removeFromWishlist_total (fuel : nat) (productId : string) w :
  (2 ≤ fuel)%nat →
  ∃ result w',
    removeFromWishlist fuel productId w = Some (result, w')
    ∧ ∀ msg, result = Thrown msg → msg ≠ "".
Proof.
  intros Hfuel. unfold removeFromWishlist. destruct (negb _).
  - eexists _, _. split; [reflexivity|]. by intros msg [= <-].
  - match goal with
    | |- context [ call fuel ?c ?f w ] =>
        destruct (call_total fuel c f w Hfuel)
          as (result & w' & sent & Hcall & _ & Hmsg)
    end.
    exists result, w'. split; [exact Hcall | by apply Hmsg].
Qed.

Lemma addToWishlist_total (fuel : nat) product w :
  (2 ≤ fuel)%nat →
  ∃ result w',
    addToWishlist fuel product w = Some (result, w')
    ∧ ∀ msg, result = Thrown msg → msg ≠ "".
Proof.
  intros Hfuel. unfold addToWishlist.
  match goal with
  | |- context [ call fuel ?c ?f ] =>
      destruct (call_total fuel c f w Hfuel)
        as (result & w' & sent & Hcall & _ & Hmsg)
  end.
  exists result, w'. split; [exact Hcall | by apply Hmsg].
Qed.

Lemma existsb_filter_id (l : list wishlistSlice.Product) (x : string) :
  existsb (λ item, String.eqb (wishlistSlice.id item) x)
    (List.filter (λ item, negb (String.eqb (wishlistSlice.id item) x)) l)
  = false.
Proof.
  induction l as [|p l IH]; [reflexivity|]. simpl.
  destruct (String.eqb (wishlistSlice.id p) x) eqn:Heq; simpl; [exact IH|].
  by rewrite Heq, IH.
Qed.

Lemma existsb_find_id (l : list wishlistSlice.Product) (x : string) :
  existsb (λ item, String.eqb (wishlistSlice.id item) x) l = false →
  List.find (λ item, String.eqb (wishlistSlice.id item) x) l = None.
Proof.
  induction l as [|p l IH]; [reflexivity|]. simpl.
  destruct (String.eqb (wishlistSlice.id p) x); [discriminate|]. exact IH.
Qed.

Lemma isInWishlist_removed product a :
  ProductCard.isInWishlist product
    (app.dispatch_wishlist
       (wishlistSlice.removeFromWishlist (wishlistSlice.id product)) a)
  = false.
Proof. apply existsb_filter_id. Qed.

Lemma isInWishlist_added product a :
  ProductCard.isInWishlist product a = false →
  ProductCard.isInWishlist product
    (app.dispatch_wishlist (wishlistSlice.addToWishlist product) a)
  = true.
Proof.
  intros Hout. unfold ProductCard.isInWishlist, app.dispatch_wishlist.
  cbn [app.wishlist]. unfold wishlistSlice.addToWishlist.
  unfold ProductCard.isInWishlist in Hout.
  rewrite (existsb_find_id _ _ Hout). cbn [wishlistSlice.items].
  rewrite existsb_app. simpl. by rewrite String.eqb_refl, orb_true_r.
Qed.


Lemma handleRemoveItem_run (fuel : nat) (productId : string) a :
  (2 ≤ fuel)%nat →
  ∃ result w',
    removeFromWishlist fuel productId (app.world a) = Some (result, w')
    ∧ WishlistPage.handleRemoveItem fuel productId a
      = Some (Returned (),
              match result with
              | Returned _ =>
                  app.toast_success "Item removed from wishlist"
                    (app.dispatch_wishlist
                       (wishlistSlice.removeFromWishlist productId)
                       (app.with_world w' a))
              | Thrown _ =>
                  app.toast_error "Failed to remove item from wishlist"
                    (app.with_world w' a)
              end).
Proof.
  intros Hfuel.
  destruct (removeFromWishlist_total fuel productId (app.world a) Hfuel)
    as (result & w' & Hcall & _).
  exists result, w'. split; [exact Hcall|].
  unfold WishlistPage.handleRemoveItem. rewrite Hcall. by destruct result.
Qed.

(** X19.  [handleRemoveItem] of the wishlist page never throws, and what it
    leaves follows the outcome of the removal it asks of the API.  When that
    returned, the entries with the id are gone from the mirror, whose other
    entries are kept, and the success notice is raised.  When it threw, the
    mirror and the success notices are untouched and the error notice
    ["Failed to remove item from wishlist"] is raised.  For the empty id it
    is the second, with nothing sent: the notice is all that changes. *)
Theorem handleRemoveItem_never_throws (fuel : nat) (productId : string) a :
  (2 ≤ fuel)%nat →
  ∃ result w' a',
    removeFromWishlist fuel productId (app.world a) = Some (result, w')
    ∧ WishlistPage.handleRemoveItem fuel productId a = Some (Returned (), a')
    ∧ app.navigations a' = app.navigations a
    ∧ (∀ data, result = Returned data →
         app.world a' = w'
         ∧ wishlistSlice.items (app.wishlist a')
           = List.filter
               (λ item, negb (String.eqb (wishlistSlice.id item) productId))
               (wishlistSlice.items (app.wishlist a))
         ∧ (productId ∉ wishlistSlice.ids (app.wishlist a'))
         ∧ app.successes a'
           = app.successes a ++ ["Item removed from wishlist"])
    ∧ (∀ msg, result = Thrown msg →
         app.world a' = toast_error "Failed to remove item from wishlist" w'
         ∧ app.wishlist a' = app.wishlist a
         ∧ app.successes a' = app.successes a)
    ∧ (productId = "" →
       a' = app.toast_error "Failed to remove item from wishlist" a).
Proof.
  intros Hfuel.
  destruct (handleRemoveItem_run fuel productId a Hfuel)
    as (result & w' & Hcall & ->).
  exists result, w'. eexists. split; [exact Hcall|].
  split; [reflexivity|]. split; [by destruct result|]. split; [|split].
  - intros data ->. split; [reflexivity|]. split; [reflexivity|].
    split; [apply filter_id_removed | reflexivity].
  - by intros msg ->.
  - intros ->. unfold removeFromWishlist in Hcall. simpl in Hcall.
    injection Hcall as <- <-. by destruct a.
Qed.

(** X20.  The card of the wishlist page hands the removal to the page:
    for a signed-in user the action of a card given [isWishlist] and the
    page's [handleRemoveItem] is [handleRemoveItem] on the product's id and
    nothing more, so a failed removal raises one notice and the card's own
    [catch] never runs. *)
Theorem delegated_removal (fuel : nat) (pathname : string) product
    (card : ProductCard.CardState) a :
  (2 ≤ fuel)%nat →
  app.isAuthenticated a = true →
  ∃ a',
    WishlistPage.handleRemoveItem fuel (wishlistSlice.id product) a
    = Some (Returned (), a')
    ∧ ProductCard.handleWishlistAction fuel pathname product true
        (Some (WishlistPage.handleRemoveItem fuel)) (card, a)
      = Some ({| ProductCard.isLoading := false; ProductCard.error := "" |},
              a').
Proof.
  intros Hfuel Hauth.
  destruct (handleRemoveItem_run fuel (wishlistSlice.id product) a Hfuel)
    as (result & w' & _ & Hrun).
  eexists. split; [exact Hrun|].
  unfold ProductCard.handleWishlistAction, app.requireAuth.
  cbn [fst snd]. rewrite Hauth. cbn [negb]. by rewrite Hrun.
Qed.

Section fetchWishlist.
Context (wishlist_of : ResponseData value → option (list wishlistSlice.Product)).

(** X21.  The effect that loads the wishlist page.  Signed out, it empties
    the mirror and sends nothing.  Signed in, it completes; when the request
    is answered with a 2xx status and a body that is not [null] the mirror
    becomes the list of the body, or empty when the body has none; when the
    body is [null], or the operation throws, the mirror is untouched and
    the last error notice is ["Failed to load wishlist"]. *)
Theorem fetchWishlist_cases (fuel : nat) a :
  (2 ≤ fuel)%nat →
  let request := new_request "get" "/wishlist-protected" NoBody [] ∅ in
  (app.isAuthenticated a = false →
   ∃ a',
     WishlistPage.fetchWishlist wishlist_of fuel a = Some a'
     ∧ wishlistSlice.items (app.wishlist a') = []
     ∧ app.world a' = app.world a)
  ∧ (app.isAuthenticated a = true →
     ∃ a',
       WishlistPage.fetchWishlist wishlist_of fuel a = Some a'
       ∧ (∀ r, first_reply (app.world a) request = Responded r →
               200 ≤ status r < 300 →
               (∀ data, api.data r = Some data →
                  wishlistSlice.items (app.wishlist a')
                  = default [] (wishlist_of data)
                  ∧ toasts (app.world a') = toasts (app.world a))
               ∧ (api.data r = None →
                  app.wishlist a' = app.wishlist a
                  ∧ last (toasts (app.world a'))
                    = Some "Failed to load wishlist"))
       ∧ (∀ msg w',
            getWishlist fuel (app.world a) = Some (Thrown msg, w') →
            app.wishlist a' = app.wishlist a
            ∧ last (toasts (app.world a')) = Some "Failed to load wishlist")).
Proof.
  intros Hfuel request. unfold WishlistPage.fetchWishlist. split.
  - intros ->. by eexists.
  - intros ->.
    destruct (call_total fuel request "Failed to fetch wishlist."
                (app.world a) Hfuel) as (result & w' & sent & Hcall & _ & _).
    unfold getWishlist. fold request. rewrite Hcall. cbn [mbind option_bind].
    assert (Hresolved : ∀ r,
              first_reply (app.world a) request = Responded r →
              200 ≤ status r < 300 →
              result = Returned (api.data r)
              ∧ toasts w' = toasts (app.world a)).
    { intros r Hreply Hstatus. unfold call in Hcall.
      rewrite (api_resolved fuel request (app.world a) r) in Hcall
        by (assumption || lia).
      by injection Hcall as <- <-. }
    destruct result as [[d|]|msg]; eexists; (split; [reflexivity|]); split.
    + intros r Hreply Hstatus.
      destruct (Hresolved r Hreply Hstatus) as [[= Hd] Htoasts].
      split; [|by rewrite <- Hd].
      intros data Hdata. rewrite Hdata in Hd. injection Hd as ->.
      by split.
    + by intros msg w'' [=].
    + intros r Hreply Hstatus.
      destruct (Hresolved r Hreply Hstatus) as [[= Hd] Htoasts].
      split; [by rewrite <- Hd|].
      intros _. split; [reflexivity|]. simpl. apply last_snoc.
    + by intros msg w'' [=].
    + intros r Hreply Hstatus.
      by destruct (Hresolved r Hreply Hstatus) as [[=] _].
    + intros msg' w'' _. split; [reflexivity|]. simpl. apply last_snoc.
Qed.

End fetchWishlist.

(** X22.  Logging out from the header resets the session, removes the
    stored token and user, empties the mirror of the wishlist and goes to
    ["/"]; it sends nothing and leaves the stored refresh token and the
    default headers of [api] as they were.  After it the protected route
    redirects to the login page, and the wishlist button of any card sends
    nothing and navigates to the login page. *)
Theorem handleLogout_ends_session a :
  let a' := Header.handleLogout a in
  auth (app.world a') = authSlice.initialState
  ∧ getItem "token" (localStorage (app.world a')) = None
  ∧ getItem "auth_user" (localStorage (app.world a')) = None
  ∧ refresh_token_of (app.world a') = refresh_token_of (app.world a)
  ∧ api_defaults (app.world a') = api_defaults (app.world a)
  ∧ wire (app.world a') = wire (app.world a)
  ∧ wishlistSlice.items (app.wishlist a') = []
  ∧ app.navigations a' = app.navigations a ++ [app.Navigate "/" None]
  ∧ (∀ pathname,
       app.ProtectedRoute pathname a'
       = Some (app.Navigate "/login" (Some pathname)))
  ∧ (∀ fuel pathname product isWishlist onRemove card,
       ProductCard.handleWishlistAction fuel pathname product isWishlist
         onRemove (card, a')
       = Some (card, app.navigate "/login" (Some pathname) a')).
Proof.
  simpl. repeat split.
  - apply clearAuthData_token.
  - apply clearAuthData_user.
  - unfold refresh_token_of. simpl. by apply clearAuthData_other.
Qed.

(** X25.  The landing page and the protected route agree on who may reach
    the upload page: the button goes to ["/upload"] exactly when the route
    would render the page, and otherwise makes the redirect the route would
    make, to the login page with ["/upload"] to come back to.  It changes
    nothing else. *)
Theorem landing_agrees_with_route a :
  let a' := Landing.handleStartSearching a in
  app.navigations a'
  = app.navigations a
    ++ [default (app.Navigate "/upload" None) (app.ProtectedRoute "/upload" a)]
  ∧ app.world a' = app.world a
  ∧ app.wishlist a' = app.wishlist a.
Proof.
  unfold Landing.handleStartSearching, app.ProtectedRoute.
  by destruct (app.isAuthenticated a).
Qed.

Section Upload_further.
Context (createObjectURL : string → string).
Context (products_of : ResponseData value → option (list wishlistSlice.Product)).


End Upload_further.

Section ProductList_further.
Context (products_of : ResponseData value → option (list wishlistSlice.Product)).

(** X24.  [handleSearch] of the product list.  With no search term and no
    image it sends nothing and only sets its error.  Otherwise it sends one
    request with the bare [axios], which carries no [Authorization] header
    whatever the store holds; the store, the session, the default headers and
    the notices are left as they were, also when the reply is a 401; and
    unless the reply is a 2xx whose body has a list of products, the
    products shown before are kept and an error is set. *)
Theorem handleSearch_bypasses_session (searchTerm : string)
    (selectedImage : option string) (countryCode currency : string)
    (state : ProductList.ListState) w :
  let request :=
    ProductList.search_request searchTerm selectedImage countryCode currency in
  let result :=
    ProductList.handleSearch products_of searchTerm selectedImage countryCode
      currency (state, w) in
  (searchTerm = "" → selectedImage = None →
   result.2 = w
   ∧ ProductList.products result.1 = ProductList.products state
   ∧ ProductList.error result.1
     = Some "Please enter a search term or upload an image.")
  ∧ (searchTerm ≠ "" ∨ is_Some selectedImage →
     wire result.2 = wire w ++ [via Axios request]
     ∧ headers request !! "Authorization" = None
     ∧ localStorage result.2 = localStorage w
     ∧ auth result.2 = auth w
     ∧ api_defaults result.2 = api_defaults w
     ∧ toasts result.2 = toasts w
     ∧ ProductList.loading result.1 = false
     ∧ ((∃ r found,
           backend (wire w) (via Axios request) = Responded r
           ∧ 200 ≤ status r < 300
           ∧ data r ≫= products_of = Some found
           ∧ ProductList.products result.1 = found
           ∧ ProductList.error result.1 = None)
        ∨ (ProductList.products result.1 = ProductList.products state
           ∧ is_Some (ProductList.error result.1)))).
Proof.
  intros request result. split.
  - intros -> ->. done.
  - intros Hinput. subst result. unfold ProductList.handleSearch.
    assert (Hguard : negb (nonempty searchTerm)
                     && negb (bool_decide (is_Some selectedImage)) = false).
    { destruct Hinput as [Hterm | Himage].
      - apply nonempty_true in Hterm. by rewrite Hterm.
      - by rewrite (bool_decide_eq_true_2 _ Himage), andb_false_r. }
    rewrite Hguard. fold request. unfold send. fold (via Axios request).
    assert (Hheader : headers request !! "Authorization" = None).
    { subst request. unfold ProductList.search_request.
      destruct selectedImage; simpl; [|done].
      by apply lookup_singleton_ne. }
    unfold settle.
    destruct (backend (wire w) (via Axios request)) as [r|msg] eqn:Hreply.
    + destruct ((200 <=? status r) && (status r <? 300)) eqn:Hstatus.
      * destruct (data r ≫= products_of) as [found|] eqn:Hfound;
          cbn [fst snd wire localStorage auth api_defaults toasts
               ProductList.loading ProductList.products ProductList.error];
          repeat (split; [done|]).
        -- left. exists r, found. apply andb_true_iff in Hstatus.
           destruct Hstatus as [Hlo%Z.leb_le Hhi%Z.ltb_lt]. done.
        -- right. by eauto.
      * cbn [fst snd wire localStorage auth api_defaults toasts
             ProductList.loading ProductList.products ProductList.error].
        repeat (split; [done|]). right. by eauto.
    + cbn [fst snd wire localStorage auth api_defaults toasts
           ProductList.loading ProductList.products ProductList.error].
      repeat (split; [done|]). right. by eauto.
Qed.

End ProductList_further.

End components_further.

(** ** Runs of the further properties *)

Section further_runs.
Import api client.

Lemma add_then_remove_witness :
  let state := {| wishlistSlice.items := [demo_product "p1" "lamp"] |} in
  let product := demo_product "p2" "desk" in
  wishlistSlice.items (wishlistSlice.addToWishlist product state)
  = [demo_product "p1" "lamp"; product]
  ∧ wishlistSlice.removeFromWishlist "p2"
      (wishlistSlice.addToWishlist product state) = state.
Proof.
  intros state product.
  assert (Habsent : wishlistSlice.id product ∉ wishlistSlice.ids state).
  { apply not_elem_of_cons. split; [discriminate | apply not_elem_of_nil]. }
  exact (add_then_remove state product Habsent).
Defined.

Lemma other_replies_pass_through_witness :
  let net := demo_network (replied 200 (token_data "new"))
                          (replied 401 no_data) in
  let config := AuthForm.submit_request login_form demo_form in
  let w := demo_world {[ "refresh_token" := "xyz" ]} in
  ∃ w',
    api (H := net) 1 config w
    = Some (Resolved {| status := 200; data := Some login_data |}, w')
    ∧ length (wire w') = 1%nat
    ∧ localStorage w' = localStorage w.
Proof.
  intros net config w.
  assert (Hreply : ∀ r, first_reply (H := net) w config = Responded r
                        → status r ≠ 401).
  { intros r [= <-]. discriminate. }
  destruct (other_replies_pass_through (H := net) 1 config w
              ltac:(lia) Hreply)
    as (w' & Hapi & Hwire & Hstore & _).
  exists w'. split; [exact Hapi|]. split; [by rewrite Hwire | exact Hstore].
Defined.

Lemma refresh_success_keeps_session_witness :
  let net := demo_network (replied 200 (token_data "new"))
                          (replied 401 no_data) in
  let w := demo_world {[ "token" := "abc"; "refresh_token" := "xyz" ]} in
  ∃ settled w',
    api (H := net) 2 demo_request w = Some (settled, w')
    ∧ auth w' = auth w
    ∧ toasts w' = []
    ∧ getItem "token" (localStorage w') = Some "new".
Proof.
  intros net w. unfold demo_request.
  destruct (refresh_success_keeps_session (H := net) 2
              "get" "/wishlist-protected" NoBody [] ∅ w
              {| status := 401; data := Some no_data |} "xyz"
              {| status := 200; data := Some (token_data "new") |}
              (token_data "new")
              ltac:(lia) eq_refl eq_refl eq_refl ltac:(discriminate) eq_refl
              eq_refl)
    as (settled & w' & Hapi & Hauth & Htoasts & Hstore & _).
  exists settled, w'. split; [exact Hapi|]. split; [exact Hauth|].
  split; [exact Htoasts|]. rewrite Hstore. reflexivity.
Defined.

Lemma default_header_survives_logout_witness :
  let net := demo_network (replied 200 (token_data "new"))
                          (replied 401 no_data) in
  let w := demo_world {[ "token" := "abc"; "refresh_token" := "xyz" ]} in
  ∃ settled w',
    api (H := net) 2 demo_request w = Some (settled, w')
    ∧ getItem "token" (localStorage (dispatch_logout w')) = None
    ∧ headers (prepare (dispatch_logout w') demo_request) !! "Authorization"
      = Some "Bearer new".
Proof.
  intros net w. unfold demo_request.
  destruct (default_header_survives_logout (H := net) 2
              "get" "/wishlist-protected" NoBody [] ∅ w
              {| status := 401; data := Some no_data |} "xyz"
              {| status := 200; data := Some (token_data "new") |}
              (token_data "new")
              ltac:(lia) eq_refl eq_refl eq_refl ltac:(discriminate) eq_refl
              eq_refl)
    as (settled & w' & Hapi & Htoken & Hheader).
  exists settled, w'. split; [exact Hapi|]. split; [exact Htoken|].
  apply Hheader. reflexivity.
Defined.


Lemma removeFromWishlist_validates_witness :
  let net := demo_network (replied 200 (token_data "new"))
                          (replied 401 no_data) in
  removeFromWishlist (H := net) 2 "" (demo_world ∅)
  = Some (Thrown "Invalid productId.", demo_world ∅).
Proof.
  intros net.
  exact (proj1 (removeFromWishlist_validates (H := net) 2 ""
                  (demo_world ∅) ltac:(lia)) eq_refl).
Defined.

Lemma useAuth_tick_without_refresh_token_witness :
  let net := demo_network (replied 200 (token_data "new"))
                          (replied 401 no_data) in
  let w := demo_world {[ "token" := "abc" ]} in
  ∃ w',
    useAuth_tick (H := net) 2 w = Some w'
    ∧ wire w' = []
    ∧ auth w' = authSlice.initialState
    ∧ getItem "token" (localStorage w') = None.
Proof.
  intros net w.
  assert (Hnone : truthy (refresh_token_of w) = false) by reflexivity.
  destruct (proj1 (useAuth_tick_without_refresh_token (H := net) 2 w
                     Hnone) eq_refl eq_refl)
    as (w' & Htick & Hwire & Hauth & Hstore & _).
  exists w'. split; [exact Htick|]. split; [exact Hwire|].
  split; [exact Hauth|]. rewrite Hstore. reflexivity.
Defined.

Lemma submit_success_signs_in_witness :
  let net := demo_network (replied 200 (token_data "new"))
                          (replied 401 no_data) in
  ∃ w',
    handleSubmit (H := net) 1 login_form demo_form (demo_world ∅)
    = Some (None, w')
    ∧ authSlice.token (auth w') = Some "abc"
    ∧ getItem "token" (localStorage w') = Some "abc"
    ∧ getItem "refresh_token" (localStorage w') = None.
Proof.
  intros net.
  destruct (proj1 (submit_success_signs_in (H := net) 1 login_form
                     demo_form (demo_world ∅)
                     {| status := 200; data := Some login_data |}
                     ltac:(lia) eq_refl ltac:(simpl; lia))
              login_data eq_refl)
    as (w' & Hsubmit & _ & Htoken & _ & Hstored & _ & Hother & _).
  exists w'. split; [exact Hsubmit|]. split; [exact Htoken|].
  split; [exact Hstored|]. by rewrite Hother.
Defined.

Lemma submit_without_credentials_witness :
  let net := constant_network (replied 201 no_data) in
  ∃ w',
    handleSubmit (H := net) 1 signup_form demo_form (demo_world ∅)
    = Some (None, w')
    ∧ getItem "token" (localStorage w') = Some "undefined"
    ∧ authSlice.isAuthenticated (auth w') = false
    ∧ headers (prepare w' demo_request) !! "Authorization"
      = Some "Bearer undefined".
Proof.
  intros net.
  destruct (submit_without_credentials (H := net) 1 signup_form
              demo_form (demo_world ∅)
              {| status := 201; data := Some no_data |} no_data
              demo_request ltac:(lia) eq_refl ltac:(simpl; lia)
              eq_refl eq_refl eq_refl)
    as (w' & Hsubmit & Htoken & _ & Hauth & _ & Hheader).
  exists w'. by repeat split.
Defined.

Lemma submit_401_ends_session_witness :
  let net := demo_network (replied 200 (token_data "new"))
                          (replied 401 no_data) in
  ∃ w',
    handleSubmit (H := net) 1 signup_form demo_form (demo_world ∅)
    = Some (Some "Request failed with status code 401", w')
    ∧ toasts w' = [session_expired]
    ∧ auth w' = authSlice.initialState.
Proof.
  intros net.
  assert (Hnone : truthy (refresh_token_of (demo_world ∅)) = false)
    by reflexivity.
  destruct (submit_401_ends_session (H := net) 1 signup_form demo_form
              (demo_world ∅) {| status := 401; data := Some no_data |}
              ltac:(lia) eq_refl eq_refl Hnone)
    as (w' & Hsubmit & Htoasts & Hauth & _).
  exists w'. by repeat split.
Defined.

Lemma submit_then_getStoredAuth_witness :
  let net := demo_network (replied 200 (token_data "new"))
                          (replied 401 no_data) in
  ∃ w',
    handleSubmit (H := net) 1 login_form demo_form (demo_world ∅)
    = Some (None, w')
    ∧ storage.getStoredAuth (localStorage w')
      = (Some {| storage.stored_token := "abc";
                 storage.stored_user := demo_user |}, localStorage w').
Proof.
  intros net.
  destruct (submit_then_getStoredAuth (H := net) 1 login_form demo_form
              (demo_world ∅) {| status := 200; data := Some login_data |}
              login_data "abc" demo_user
              ltac:(lia) eq_refl ltac:(simpl; lia) eq_refl eq_refl
              ltac:(discriminate) eq_refl eq_refl)
    as (w' & Hsubmit & Hload & _).
  exists w'. by split.
Defined.

Lemma undefined_credentials_are_purged_witness :
  let net := constant_network (replied 201 no_data) in
  ∃ w',
    handleSubmit (H := net) 1 signup_form demo_form (demo_world ∅)
    = Some (None, w')
    ∧ (storage.getStoredAuth (localStorage w')).1 = None
    ∧ getItem "token" (storage.getStoredAuth (localStorage w')).2 = None.
Proof.
  intros net.
  destruct (undefined_credentials_are_purged (H := net) 1 signup_form
              demo_form (demo_world ∅)
              {| status := 201; data := Some no_data |} no_data
              ltac:(lia) eq_refl ltac:(simpl; lia) eq_refl eq_refl eq_refl)
    as (w' & Hsubmit & Hload & Htoken & _).
  exists w'. split; [exact Hsubmit|]. split; [by rewrite Hload | exact Htoken].
Defined.


Lemma handleRemoveItem_never_throws_witness :
  let net := constant_network (replied 200 no_data) in
  ∃ a',
    WishlistPage.handleRemoveItem (H := net) 2 "" (demo_app ∅)
    = Some (Returned (), a')
    ∧ a' = app.toast_error "Failed to remove item from wishlist" (demo_app ∅).
Proof.
  intros net.
  destruct (handleRemoveItem_never_throws (H := net) 2 ""
              (demo_app ∅) ltac:(lia))
    as (result & w' & a' & _ & Hrun & _ & _ & _ & Hempty).
  exists a'. split; [exact Hrun|]. exact (Hempty eq_refl).
Defined.

Lemma delegated_removal_witness :
  let net := constant_network (replied 200 no_data) in
  let card := {| ProductCard.isLoading := true; ProductCard.error := "old" |} in
  ∃ a',
    ProductCard.handleWishlistAction (H := net) 2 "/wishlist"
      (demo_product "p1" "lamp") true
      (Some (WishlistPage.handleRemoveItem (H := net) 2)) (card, demo_app ∅)
    = Some ({| ProductCard.isLoading := false; ProductCard.error := "" |}, a').
Proof.
  intros net card.
  destruct (delegated_removal (H := net) 2 "/wishlist"
              (demo_product "p1" "lamp") card (demo_app ∅)
              ltac:(lia) eq_refl)
    as (a' & _ & Hrun).
  exists a'. exact Hrun.
Defined.

Lemma fetchWishlist_cases_witness :
  let net := constant_network (replied 200 no_data) in
  ∃ a',
    WishlistPage.fetchWishlist (H := net) demo_list_of 2 (demo_app ∅) = Some a'
    ∧ wishlistSlice.items (app.wishlist a') = [demo_product "p2" "desk"].
Proof.
  intros net.
  destruct (proj2 (fetchWishlist_cases (H := net) demo_list_of 2
                     (demo_app ∅) ltac:(lia)) eq_refl)
    as (a' & Hrun & Hresolved & _).
  exists a'. split; [exact Hrun|].
  exact (proj1 (proj1 (Hresolved {| status := 200; data := Some no_data |}
                         eq_refl ltac:(simpl; lia))
                  no_data eq_refl)).
Defined.


End further_runs.
